(** * Driver simulator of WCTSystem: path densification and route walk

    A shallow embedding of [driver_simulator.py]:
    - [evenly_space_coordinates]: the path densifier;
    - [_is_near_waypoint] and the bin search of [drive_route]: the
      waypoint matcher;
    - [DriverSimulator]: constructor, [update_location],
      [reset_bin_fill_levels] and [drive_route], the route walker;
    - [login] and [main], from the parsed arguments on.

    Python floats are kept behind an interface, [PyFloat], that lists the
    float operations the program uses, each with the exceptions Python
    gives it.  The program is written once over that interface and run
    at IEEE binary64, the arithmetic of Python's floats.  Facts on the
    shape of the output and on the walk are proved for every instance;
    facts that rest on the arithmetic name what they need of it in
    [PyFloatLaws], which is proved of binary64. *)

From Stdlib Require Import PrimFloat SpecFloat FloatOps FloatAxioms.
From Stdlib Require Import String ZArith Bool Lia List.
Import ListNotations.

Set Warnings "-inexact-float".

(** ** Python exceptions and results *)

Inductive exn : Type :=
| ZeroDivisionError
| OverflowError
| ValueError
| IndexError.

Inductive res (A : Type) : Type :=
| Ret (a : A)
| Raise (e : exn).

Arguments Ret {A} a.
Arguments Raise {A} e.

Definition rbind {A B : Type} (m : res A) (k : A -> res B) : res B :=
  match m with
  | Ret a => k a
  | Raise e => Raise e
  end.

Declare Scope res_scope.
Delimit Scope res_scope with res.
Notation "x <- m ;; k" := (rbind m (fun x => k))
  (at level 100, m at next level, right associativity) : res_scope.
Open Scope res_scope.

(** ** The float operations of the program

    [x + y], [x - y] and [x * y] never raise on floats.  [x / y] raises
    [ZeroDivisionError] on a zero divisor, [x ** 2] raises
    [OverflowError] when a finite square overflows, [math.sqrt] raises
    [ValueError] on a negative argument and [int(x)] raises on an
    infinity ([OverflowError]) or a NaN ([ValueError]).  [j / n] is the
    true division of two ints; the program only divides by an [n >= 1].
    [time.sleep(t)] raises on a negative, NaN or too large [t]. *)

Class PyFloat (F : Type) : Type := {
  fone : F;
  fadd : F -> F -> F;
  fsub : F -> F -> F;
  fmul : F -> F -> F;
  fdiv : F -> F -> res F;
  fpow2 : F -> res F;
  fsqrt : F -> res F;
  fint : F -> res Z;
  int_truediv : Z -> Z -> F;
  fround : F -> nat -> F;
  fabs : F -> F;
  flt : F -> F -> bool;
  sleep_exn : F -> option exn
}.

(** ** Lists the way Python indexes them *)

Definition getitem {A : Type} (l : list A) (i : nat) : res A :=
  match nth_error l i with
  | Some a => Ret a
  | None => Raise IndexError
  end.

(** [range(a, b)] on ints. *)
Definition range (a b : Z) : list Z :=
  map (fun k => a + Z.of_nat k)%Z (seq 0 (Z.to_nat (b - a))).

(** [l1] is [l2] with some elements left out, the others in order. *)
Inductive Subseq {A : Type} : list A -> list A -> Prop :=
| Subseq_nil : Subseq [] []
| Subseq_skip (x : A) (l1 l2 : list A) :
    Subseq l1 l2 -> Subseq l1 (x :: l2)
| Subseq_keep (x : A) (l1 l2 : list A) :
    Subseq l1 l2 -> Subseq (x :: l1) (x :: l2).

(** Every two consecutive elements of [l] are related by [R]. *)
Fixpoint adjacent_all {A : Type} (R : A -> A -> Prop) (l : list A) : Prop :=
  match l with
  | [] => True
  | a :: tl =>
      match tl with
      | [] => True
      | b :: _ => R a b /\ adjacent_all R tl
      end
  end.

(** [x] is in [l] exactly once. *)
Definition emitted_once {A : Type} (x : A) (l : list A) : Prop :=
  exists l1 l2, l = l1 ++ x :: l2 /\ ~ In x l1 /\ ~ In x l2.

(** ** PathDensifier: [evenly_space_coordinates] *)

Section Densifier.

Context {F : Type} `{PyFloat F}.

(** A coordinate is the two-element list [[longitude, latitude]]. *)
Definition coord : Type := (F * F)%type.

(** Lines 39-42. *)
Definition distance (start_point end_point : coord) : res F :=
  dx2 <- fpow2 (fsub (fst end_point) (fst start_point)) ;;
  dy2 <- fpow2 (fsub (snd end_point) (snd start_point)) ;;
  fsqrt (fadd dx2 dy2).

(** Line 45. *)
Definition num_points (start_point end_point : coord) (spacing_factor : F)
  : res Z :=
  d <- distance start_point end_point ;;
  q <- fdiv d spacing_factor ;;
  k <- fint q ;;
  Ret (Z.max 1 k).

(** Lines 49-52: the body of the inner loop. *)
Definition intermediate (start_point end_point : coord) (n j : Z) : coord :=
  let ratio := int_truediv j n in
  let intermediate_lon :=
    fadd (fst start_point)
         (fmul ratio (fsub (fst end_point) (fst start_point))) in
  let intermediate_lat :=
    fadd (snd start_point)
         (fmul ratio (fsub (snd end_point) (snd start_point))) in
  (fround intermediate_lon 6, fround intermediate_lat 6).

(** Lines 48-52: the points the inner loop appends. *)
Definition intermediates (start_point end_point : coord) (n : Z)
  : list coord :=
  map (intermediate start_point end_point n) (range 1 n).

(** Lines 35-56: one turn of the outer loop, on [result]. *)
Definition segment (coordinates : list coord) (spacing_factor : F)
           (i : nat) (result : list coord) : res (list coord) :=
  start_point <- getitem coordinates i ;;
  end_point <- getitem coordinates (i + 1) ;;
  n <- num_points start_point end_point spacing_factor ;;
  let result := result ++ intermediates start_point end_point n in
  if (Z.of_nat i <? Z.of_nat (length coordinates) - 2)%Z
  then Ret (result ++ [end_point])
  else Ret result.

(** Line 34: the outer loop over [range(len(coordinates) - 1)]. *)
Fixpoint segments (coordinates : list coord) (spacing_factor : F)
         (indices : list nat) (result : list coord) : res (list coord) :=
  match indices with
  | [] => Ret result
  | i :: indices' =>
      result' <- segment coordinates spacing_factor i result ;;
      segments coordinates spacing_factor indices' result'
  end.

Definition evenly_space_coordinates (coordinates : list coord)
           (spacing_factor : F) : res (list coord) :=
  if (length coordinates <? 2)%nat then Ret coordinates
  else
    first <- getitem coordinates 0 ;;
    result <- segments coordinates spacing_factor
                       (seq 0 (length coordinates - 1)) [first] ;;
    final <- getitem coordinates (length coordinates - 1) ;;
    Ret (result ++ [final]).

(** *** The same function by recursion on the route

    [chain a rest] is what the segments from [a] through [rest] add
    after [a]: for each segment its interior points and then its end
    point. *)
Fixpoint chain (a : coord) (rest : list coord) (spacing_factor : F)
  : res (list coord) :=
  match rest with
  | [] => Ret []
  | b :: rest' =>
      n <- num_points a b spacing_factor ;;
      tl <- chain b rest' spacing_factor ;;
      Ret (intermediates a b n ++ b :: tl)
  end.

(** No segment of the route raises while its pieces are counted
    (lines 39-45). *)
Fixpoint segments_defined (a : coord) (rest : list coord)
         (spacing_factor : F) : Prop :=
  match rest with
  | [] => True
  | b :: rest' =>
      (exists n, num_points a b spacing_factor = Ret n)
      /\ segments_defined b rest' spacing_factor
  end.

Definition route_defined (coordinates : list coord) (spacing_factor : F)
  : Prop :=
  match coordinates with
  | [] => True
  | a :: rest => segments_defined a rest spacing_factor
  end.

End Densifier.


(** ** What the properties need of the arithmetic

    Three more operations, which the program does not use but the
    specification speaks of ([0.0], [math.isfinite] and [math.floor]),
    and the facts of float arithmetic that properties of the program
    rest on.  They say nothing of [round], and of [x ** 2] only that
    [0.0 ** 2] is [0.0].  They are proved of binary64 below
    ([binary64_laws]). *)

Class PyFloatLaws (F : Type) `{PyFloat F} : Type := {
  fzero : F;
  ffinite : F -> bool;
  ffloor : F -> res Z;
  (** [x - x] is [0.0] for a finite [x]. *)
  fsub_self : forall x : F, ffinite x = true -> fsub x x = fzero;
  fpow2_zero : fpow2 fzero = Ret fzero;
  fadd_zero : fadd fzero fzero = fzero;
  fsqrt_zero : fsqrt fzero = Ret fzero;
  (** [0.0 / s] is [0.0] for [s > 0]. *)
  fdiv_zero : forall s : F, flt fzero s = true -> fdiv fzero s = Ret fzero;
  (** [d / 0.0] raises. *)
  fdiv_by_zero : forall d : F, fdiv d fzero = Raise ZeroDivisionError;
  fint_zero : fint fzero = Ret 0%Z;
  fabs_zero : fabs fzero = fzero;
  (** An absolute value is below positive numbers only. *)
  fabs_below :
    forall d t : F, flt (fabs d) t = true -> flt fzero t = true;
  (** On the quotient of a square root by a number above zero,
      [math.floor] and [int] are the same: the quotient is not
      negative. *)
  ffloor_quotient :
    forall x s d q : F,
      flt fzero s = true -> fsqrt x = Ret d -> fdiv d s = Ret q ->
      ffloor q = fint q;
  (** [int] of the quotient of a square root by a number below zero is
      not positive. *)
  fint_quotient_negative :
    forall (x s d q : F) (k : Z),
      flt s fzero = true -> fsqrt x = Ret d -> fdiv d s = Ret q ->
      fint q = Ret k -> (k <= 0)%Z;
  (** [int] of a number below [2.0] is at most 1. *)
  fint_below_two :
    forall (q : F) (k : Z),
      flt q (fadd fone fone) = true -> fint q = Ret k -> (k <= 1)%Z
}.

(** ** PathDensifier as the specification words it

    For each consecutive pair [(A, B)]: the Euclidean distance [d],
    [n = max(1, floor(d / spacingFactor))], and the [n - 1] interior
    points at ratios [j / n], each coordinate rounded to 6 decimal
    places; [B] is emitted once, after its segment; the first point of
    the route comes first.  The numbers are floats and the operations
    the ones of the program. *)

Section Specification.

Context {F : Type} `{PyFloatLaws F}.

Definition euclid (A B : coord (F := F)) : res F :=
  dx2 <- fpow2 (fsub (fst B) (fst A)) ;;
  dy2 <- fpow2 (fsub (snd B) (snd A)) ;;
  fsqrt (fadd dx2 dy2).

Definition pieces (A B : coord (F := F)) (spacingFactor : F) : res Z :=
  d <- euclid A B ;;
  q <- fdiv d spacingFactor ;;
  k <- ffloor q ;;
  Ret (Z.max 1 k).

Definition interpolant (A B : coord (F := F)) (n j : Z) : coord (F := F) :=
  let ratio := int_truediv j n in
  (fround (fadd (fst A) (fmul ratio (fsub (fst B) (fst A)))) 6,
   fround (fadd (snd A) (fmul ratio (fsub (snd B) (snd A)))) 6).

Definition interior (A B : coord (F := F)) (n : Z)
  : list (coord (F := F)) :=
  map (fun k => interpolant A B n (Z.of_nat k))
      (seq 1 (Z.to_nat n - 1)).

Fixpoint densify_from (A : coord (F := F)) (rest : list (coord (F := F)))
         (spacingFactor : F) : res (list (coord (F := F))) :=
  match rest with
  | [] => Ret []
  | B :: rest' =>
      n <- pieces A B spacingFactor ;;
      tl <- densify_from B rest' spacingFactor ;;
      Ret (interior A B n ++ B :: tl)
  end.

Definition densify (route : list (coord (F := F))) (spacingFactor : F)
  : res (list (coord (F := F))) :=
  match route with
  | [] => Ret []
  | A :: rest =>
      tl <- densify_from A rest spacingFactor ;;
      Ret (A :: tl)
  end.

End Specification.

(** ** The points of a segment *)

Section Points.

Context {F : Type} `{PyFloat F}.




End Points.

(** ** The world outside the walker

    The walker talks to the tracking service over HTTP, sleeps and
    prints.  A computation of the walker runs in a [world] that counts
    the requests sent and logs the events, the latest first; it yields a
    value or a Python exception, and the world it reached. *)

Section Walker.

Context {F : Type} `{PyFloat F}.

(** A JSON object of the service, as the dict [response.json()] gives. *)
Definition json : Type := list (string * string).

(** A [requests.exceptions.RequestException]: its text, and the text of
    its response when [e.response] is there and truthy. *)
Record RequestException : Type := {
  exc_str : string;
  exc_response : option string
}.

Inductive request : Type :=
| PutFillLevel (bin_id : string) (fill_level : Z)
| PostDirectUpdate (bin_id : string) (fill_level : Z)
| PostLocation (longitude latitude : F).

(** What a request comes to: the body of a successful response, or the
    exception that [requests.post], [requests.put],
    [raise_for_status] or [json] raised. *)
Inductive reply : Type :=
| Reply (body : json)
| Failure (e : RequestException).

(** The argument of [time.sleep]: the int [pause_time] or a float. *)
Inductive secs : Type :=
| IntSecs (z : Z)
| FloatSecs (t : F).

(** One constructor for each [print] of the program (time stamps are
    left out). *)
Inductive message : Type :=
| MsgNoToken
| MsgResetting (bins : nat)
| MsgSetting (bin_id : string) (fill_level : Z)
| MsgResetDone (bin_id : string) (fill_level : Z)
| MsgResetError (bin_id : string) (e : string)
| MsgResponse (text : string)
| MsgAlternative (bin_id : string)
| MsgAlternativeDone (bin_id : string)
| MsgAllFailed (bin_id : string)
| MsgUpdateError (e : string)
| MsgStarting (points bins : nat)
| MsgSpeed (speed : F) (pause_time : Z)
| MsgPosition (number points : nat) (longitude latitude : F)
| MsgServer (text : string)
| MsgUpdated
| MsgReachedBin (number : nat) (bin_coords : coord (F := F))
| MsgPausing (pause_time : Z)
| MsgResuming
| MsgCompleted.

Inductive event : Type :=
| Request (r : request) (a : reply)
| Sleep (t : secs)
| Print (m : message).

Record world : Type := {
  sent : nat;
  log : list event
}.

Definition start : world := {| sent := 0; log := [] |}.

(** The events in the order they happened. *)
Definition trace (w : world) : list event := rev (log w).

(** The tracking service: the reply to the [n]-th request sent. *)
Definition service : Type := nat -> request -> reply.

Definition M (A : Type) : Type := world -> res A * world.

Definition ret {A : Type} (a : A) : M A := fun w => (Ret a, w).

Definition raise {A : Type} (e : exn) : M A := fun w => (Raise e, w).

Definition bind {A B : Type} (m : M A) (k : A -> M B) : M B :=
  fun w =>
    match m w with
    | (Ret a, w') => k a w'
    | (Raise e, w') => (Raise e, w')
    end.

Definition lift {A : Type} (r : res A) : M A := fun w => (r, w).

Definition emit (e : event) : M unit :=
  fun w => (Ret tt, {| sent := sent w; log := e :: log w |}).

Definition print (m : message) : M unit := emit (Print m).

Definition send (srv : service) (r : request) : M reply :=
  fun w =>
    let a := srv (sent w) r in
    (Ret a, {| sent := S (sent w); log := Request r a :: log w |}).

Declare Scope walk_scope.
Delimit Scope walk_scope with walk.
Notation "x <- m ;; k" := (bind m (fun x => k))
  (at level 100, m at next level, right associativity) : walk_scope.
Notation "m ;; k" := (bind m (fun _ => k))
  (at level 100, right associativity) : walk_scope.
Local Open Scope walk_scope.

(** [time.sleep] raises [OverflowError] when the nanoseconds do not fit
    64 bits and [ValueError] on a negative length. *)
Definition int_sleep_exn (z : Z) : option exn :=
  if ((z * 10 ^ 9 <? - 2 ^ 63) || (2 ^ 63 <=? z * 10 ^ 9))%Z
  then Some OverflowError
  else if (z <? 0)%Z then Some ValueError else None.

Definition time_sleep (t : secs) : M unit :=
  match match t with
        | IntSecs z => int_sleep_exn z
        | FloatSecs x => sleep_exn x
        end with
  | Some e => raise e
  | None => emit (Sleep t)
  end.

(** [for x in l: body(x)], with the index of [enumerate]. *)
Fixpoint for_each {A : Type} (body : nat -> A -> M unit) (i : nat)
         (l : list A) : M unit :=
  match l with
  | [] => ret tt
  | x :: l' => body i x ;; for_each body (S i) l'
  end.

(** *** Module constants *)

Variable ROUTE_COORDINATES : list (coord (F := F)).
Variable BIN_COORDINATES : list (coord (F := F)).
Variable COORDINATE_TOLERANCE : F.
Variable BINS_TO_RESET : list (string * Z).

(** *** [DriverSimulator] *)

Record DriverSimulator : Type := {
  base_url : string;
  token : option string;
  speed : F;
  pause_time : Z;
  headers : list (string * option string)
}.

(** Truth value of [self.token]: [None] and the empty string are false. *)
Definition has_token (token : option string) : bool :=
  match token with
  | Some s => negb (String.eqb s "")
  | None => false
  end.

(** Lines 105-130. *)
Definition __init__ (base_url : string) (token : option string)
           (speed : F) (pause_time : Z) : M DriverSimulator :=
  let self :=
    {| base_url := base_url;
       token := token;
       speed := speed;
       pause_time := pause_time;
       headers :=
         [("Content-Type"%string, Some "application/json"%string);
          ("Authorization"%string,
           if has_token token
           then option_map (String.append "Bearer ") token
           else None)] |} in
  (if negb (has_token token) then print MsgNoToken else ret tt) ;;
  ret self.

Variable srv : service.

(** Lines 136-170: one bin of [reset_bin_fill_levels]. *)
Definition reset_bin (entry : string * Z) : M unit :=
  let '(bin_id, fill_level) := entry in
  print (MsgSetting bin_id fill_level) ;;
  a <- send srv (PutFillLevel bin_id fill_level) ;;
  match a with
  | Reply _ => print (MsgResetDone bin_id fill_level)
  | Failure e =>
      print (MsgResetError bin_id (exc_str e)) ;;
      match exc_response e with
      | Some text => print (MsgResponse text)
      | None => ret tt
      end ;;
      print (MsgAlternative bin_id) ;;
      a' <- send srv (PostDirectUpdate bin_id fill_level) ;;
      match a' with
      | Reply _ => print (MsgAlternativeDone bin_id)
      | Failure _ => print (MsgAllFailed bin_id)
      end
  end.

Definition reset_bin_fill_levels : M unit :=
  print (MsgResetting (length BINS_TO_RESET)) ;;
  for_each (fun _ entry => reset_bin entry) 0 BINS_TO_RESET.

(** Lines 172-176. *)
Definition _is_near_waypoint (current_position waypoint : coord (F := F))
  : bool :=
  flt (fabs (fsub (fst current_position) (fst waypoint)))
      COORDINATE_TOLERANCE
  && flt (fabs (fsub (snd current_position) (snd waypoint)))
         COORDINATE_TOLERANCE.

(** Lines 178-203. *)
Definition update_location (longitude latitude : F) : M json :=
  a <- send srv (PostLocation longitude latitude) ;;
  match a with
  | Reply body => ret body
  | Failure e =>
      print (MsgUpdateError (exc_str e)) ;;
      match exc_response e with
      | Some text => print (MsgResponse text)
      | None => ret tt
      end ;;
      ret [("error"%string, exc_str e)]
  end.

(** Lines 219-226: the search for a bin near [coords]; [idx] counts as
    [enumerate] does, and the first hit ends the search. *)
Fixpoint match_bin (coords : coord (F := F))
         (bins : list (coord (F := F))) (idx : nat) : option nat :=
  match bins with
  | [] => None
  | bin_coords :: bins' =>
      if _is_near_waypoint coords bin_coords then Some idx
      else match_bin coords bins' (S idx)
  end.

(** [key in response] and [response.get(key, default)]. *)
Fixpoint dict_get (response : json) (key : string) : option string :=
  match response with
  | [] => None
  | (k, v) :: response' =>
      if String.eqb k key then Some v else dict_get response' key
  end.

(** Lines 215-248: one turn of the loop of [drive_route]. *)
Definition drive_step (self : DriverSimulator) (i : nat)
           (coords : coord (F := F)) : M unit :=
  let '(longitude, latitude) := coords in
  let bin_index := match_bin coords BIN_COORDINATES 0 in
  print (MsgPosition (i + 1) (length ROUTE_COORDINATES)
                     longitude latitude) ;;
  response <- update_location longitude latitude ;;
  match dict_get response "message" with
  | Some text => print (MsgServer text)
  | None => print MsgUpdated
  end ;;
  match bin_index with
  | Some idx =>
      bin_coords <- lift (getitem BIN_COORDINATES idx) ;;
      print (MsgReachedBin (idx + 1) bin_coords) ;;
      print (MsgPausing (pause_time self)) ;;
      time_sleep (IntSecs (pause_time self)) ;;
      print MsgResuming
  | None => ret tt
  end ;;
  if (Z.of_nat i <? Z.of_nat (length ROUTE_COORDINATES) - 1)%Z
  then
    sleep_time <- lift (fdiv fone (speed self)) ;;
    time_sleep (FloatSecs sleep_time)
  else ret tt.

(** Lines 205-250. *)
Definition drive_route (self : DriverSimulator) : M unit :=
  reset_bin_fill_levels ;;
  print (MsgStarting (length ROUTE_COORDINATES)
                     (length BIN_COORDINATES)) ;;
  print (MsgSpeed (speed self) (pause_time self)) ;;
  for_each (drive_step self) 0 ROUTE_COORDINATES ;;
  print MsgCompleted.

(** *** Reading a log *)

(** The positions reported, each with the reply it got. *)
Fixpoint reports (evs : list event) : list (coord (F := F) * reply) :=
  match evs with
  | [] => []
  | Request (PostLocation lon lat) a :: evs' =>
      ((lon, lat), a) :: reports evs'
  | _ :: evs' => reports evs'
  end.

(** The lengths of the sleeps between two points. *)
Fixpoint step_sleeps (evs : list event) : list F :=
  match evs with
  | [] => []
  | Sleep (FloatSecs t) :: evs' => t :: step_sleeps evs'
  | _ :: evs' => step_sleeps evs'
  end.

(** Every failed report of a log has its error message in the log. *)
Definition recorded (evs : list event) : Prop :=
  forall coords e,
    In (coords, Failure e) (reports evs) ->
    In (Print (MsgUpdateError (exc_str e))) evs.

(** The positions reported in a world, in the order of the calls. *)
Definition reported (w : world) : list (coord (F := F)) :=
  map fst (reports (trace w)).

(** *** WaypointMatcher as the specification words it

    The square tolerance region of [stop] contains [position]: both
    [|position.lon - stop.lon| < tolerance] and
    [|position.lat - stop.lat| < tolerance]. *)
Definition covers (tolerance : F) (stop position : coord (F := F))
  : Prop :=
  flt (fabs (fsub (fst position) (fst stop))) tolerance = true
  /\ flt (fabs (fsub (snd position) (snd stop))) tolerance = true.

(** *** The control flow of the walk, without its events

    Whether a turn of the loop raises depends on the simulator and the
    constants only, not on the service: [step_outcome] is the result
    of [drive_step] and [walk_plan] the result of the loop with the
    positions it reports. *)

Definition step_outcome (self : DriverSimulator) (i : nat)
           (coords : coord (F := F)) : res unit :=
  (_ <- match match_bin coords BIN_COORDINATES 0 with
        | Some idx =>
            (_ <- getitem BIN_COORDINATES idx ;;
             match int_sleep_exn (pause_time self) with
             | Some e => Raise e
             | None => Ret tt
             end)%res
        | None => Ret tt
        end ;;
   if (Z.of_nat i <? Z.of_nat (length ROUTE_COORDINATES) - 1)%Z
   then
     (sleep_time <- fdiv fone (speed self) ;;
      match sleep_exn sleep_time with
      | Some e => Raise e
      | None => Ret tt
      end)%res
   else Ret tt)%res.

Fixpoint walk_plan (self : DriverSimulator) (i : nat)
         (l : list (coord (F := F)))
  : res unit * list (coord (F := F)) :=
  match l with
  | [] => (Ret tt, [])
  | coords :: l' =>
      match step_outcome self i coords with
      | Ret _ =>
          let '(r, reported) := walk_plan self (S i) l' in
          (r, coords :: reported)
      | Raise e => (Raise e, [coords])
      end
  end.

End Walker.

(** ** More of the densifier: the pieces of a route *)

Section Pieces.

Context {F : Type} `{PyFloat F}.

(** The value [num_points] takes on each segment of the route, in
    order (line 45, once for each turn of the outer loop). *)
Fixpoint segment_counts (a : coord) (rest : list coord)
         (spacing_factor : F) : res (list Z) :=
  match rest with
  | [] => Ret []
  | b :: rest' =>
      n <- num_points a b spacing_factor ;;
      ns <- segment_counts b rest' spacing_factor ;;
      Ret (n :: ns)
  end.

End Pieces.

(** ** More readings of a log *)

Section Readings.

Context {F : Type} `{PyFloat F}.

(** The pauses at bins: the lengths of the sleeps on an int. *)
Fixpoint pauses (evs : list (event (F := F))) : list Z :=
  match evs with
  | [] => []
  | Sleep (IntSecs z) :: evs' => z :: pauses evs'
  | _ :: evs' => pauses evs'
  end.

(** The bins announced: number and coordinates of each
    [REACHED BIN] message. *)
Fixpoint arrivals (evs : list (event (F := F)))
  : list (nat * coord (F := F)) :=
  match evs with
  | [] => []
  | Print (MsgReachedBin number bin_coords) :: evs' =>
      (number, bin_coords) :: arrivals evs'
  | _ :: evs' => arrivals evs'
  end.

(** The requests on bins (every request that is not a report), each
    with its reply. *)
Fixpoint bin_requests (evs : list (event (F := F)))
  : list (request (F := F) * reply) :=
  match evs with
  | [] => []
  | Request (PostLocation _ _) _ :: evs' => bin_requests evs'
  | Request r a :: evs' => (r, a) :: bin_requests evs'
  | _ :: evs' => bin_requests evs'
  end.

(** The requests of a reset of [bins], in order: for each bin its PUT,
    and after a PUT that failed, and only then, the POST of the other
    method for the same bin. *)
Fixpoint reset_shape (bins : list (string * Z))
         (rs : list (request (F := F) * reply)) : Prop :=
  match bins with
  | [] => rs = []
  | (bin_id, fill_level) :: bins' =>
      match rs with
      | (PutFillLevel b f, Reply _) :: rs' =>
          b = bin_id /\ f = fill_level /\ reset_shape bins' rs'
      | (PutFillLevel b f, Failure _) :: (PostDirectUpdate b' f', _) :: rs' =>
          b = bin_id /\ f = fill_level /\ b' = bin_id /\ f' = fill_level
          /\ reset_shape bins' rs'
      | _ => False
      end
  end.

(** The bins the points of a route are near: for each point near a bin,
    the number and the coordinates of the first such bin. *)
Definition bins_reached (route bins : list (coord (F := F)))
           (tolerance : F) : list (nat * coord (F := F)) :=
  flat_map (fun coords =>
              match match_bin tolerance coords bins 0 with
              | Some idx =>
                  match nth_error bins idx with
                  | Some bin_coords => [((idx + 1)%nat, bin_coords)]
                  | None => []
                  end
              | None => []
              end) route.

End Readings.

(** ** [login] and [main]

    [main] is modelled from the parsed arguments on (line 283): the
    command line itself is the business of [argparse]. *)

Section Main.

Context {F : Type} `{PyFloat F}.

Variable ROUTE_COORDINATES : list (coord (F := F)).
Variable BIN_COORDINATES : list (coord (F := F)).
Variable COORDINATE_TOLERANCE : F.
Variable BINS_TO_RESET : list (string * Z).

(** The namespace [parser.parse_args()] returns. *)
Record Args : Type := {
  args_url : string;
  args_username : string;
  args_password : string;
  args_speed : F;
  args_pause : Z;
  args_token : option string;
  args_skip_reset : bool
}.

(** The prints of [login] and [main]. *)
Inductive main_message : Type :=
| MsgLoggingIn (username : string)
| MsgLoginError (e : string)
| MsgLoginResponse (text : string)
| MsgLoginFailed
| MsgLoginSuccessful.

(** What happens in a run of [main]: the log-in request, the prints of
    [login] and [main], and the events of the walker. *)
Inductive main_event : Type :=
| LoginRequest (base_url username password : string) (a : reply)
| Say (m : main_message)
| Walk (e : event (F := F)).

(** The requests sent so far and the events, the latest first. *)
Record session : Type := {
  requests : nat;
  history : list main_event
}.

Definition opening : session := {| requests := 0; history := [] |}.

(** The log-in service: the reply to the credentials posted. *)
Definition login_service : Type := string -> string -> string -> reply.

Definition MM (A : Type) : Type := session -> res A * session.

Definition say (m : main_message) : MM unit :=
  fun s =>
    (Ret tt, {| requests := requests s; history := Say m :: history s |}).

(** A computation of the walker inside [main]: it goes on counting the
    requests, and its events go to the history. *)
Definition lift_walk {A : Type} (m : M (F := F) A) : MM A :=
  fun s =>
    let '(r, w) := m {| sent := requests s; log := [] |} in
    (r, {| requests := sent w;
           history := map Walk (log w) ++ history s |}).

(** Lines 252-269. *)
Definition login (auth : login_service)
           (base_url username password : string) : MM string :=
  fun s =>
    let a := auth base_url username password in
    let s1 :=
      {| requests := S (requests s);
         history := LoginRequest base_url username password a
                    :: history s |} in
    match a with
    | Reply data =>
        (Ret match dict_get data "token" with
             | Some t => t
             | None => ""%string
             end, s1)
    | Failure e =>
        (Ret ""%string,
         {| requests := requests s1;
            history := match exc_response e with
                       | Some text => [Say (MsgLoginResponse text)]
                       | None => []
                       end
                       ++ Say (MsgLoginError (exc_str e)) :: history s1 |})
    end.

(** Lines 293-301: the simulator is made and drives the route. *)
Definition run_simulator (srv : service (F := F)) (args : Args)
           (token : option string) : MM unit :=
  lift_walk
    (bind (__init__ (args_url args) token (args_speed args)
                    (args_pause args))
          (fun simulator =>
             drive_route ROUTE_COORDINATES BIN_COORDINATES
                         COORDINATE_TOLERANCE BINS_TO_RESET srv simulator)).

(** What [login] gives for a token: the ["token"] of the reply, or the
    empty string. *)
Definition token_of (a : reply) : string :=
  match a with
  | Reply data =>
      match dict_get data "token" with
      | Some t => t
      | None => ""%string
      end
  | Failure _ => ""%string
  end.

Definition mbind {A B : Type} (m : MM A) (k : A -> MM B) : MM B :=
  fun s =>
    match m s with
    | (Ret a, s') => k a s'
    | (Raise e, s') => (Raise e, s')
    end.

(** Lines 283-301. *)
Definition main (auth : login_service) (srv : service (F := F))
           (args : Args) : MM unit :=
  if has_token (args_token args)
  then run_simulator srv args (args_token args)
  else
    mbind (say (MsgLoggingIn (args_username args))) (fun _ =>
    mbind (login auth (args_url args) (args_username args)
                 (args_password args)) (fun token =>
    if negb (has_token (Some token))
    then say MsgLoginFailed
    else
      mbind (say MsgLoginSuccessful) (fun _ =>
      run_simulator srv args (Some token)))).

(** The events of the walker in a history. *)
Fixpoint walk_events (evs : list main_event) : list (event (F := F)) :=
  match evs with
  | [] => []
  | Walk e :: evs' => e :: walk_events evs'
  | _ :: evs' => walk_events evs'
  end.

(** The log-in requests of a history. *)
Fixpoint login_requests (evs : list main_event)
  : list (string * string * string) :=
  match evs with
  | [] => []
  | LoginRequest base_url username password _ :: evs' =>
      (base_url, username, password) :: login_requests evs'
  | _ :: evs' => login_requests evs'
  end.

End Main.

(** ** Python floats: IEEE binary64 *)

Module Binary64.

Local Open Scope float_scope.

(** An int as an unrounded float: mantissa [|z|], exponent 0. *)
Definition Z2SF (z : Z) : spec_float :=
  match z with
  | Z0 => S754_zero false
  | Zpos p => S754_finite false p 0
  | Zneg p => S754_finite true p 0
  end.

(** [x / y]. *)
Definition div (x y : float) : res float :=
  if y =? 0 then Raise ZeroDivisionError else Ret (x / y).

(** [x ** 2]: the square, rounded; a finite [x] whose square is not
    finite raises. *)
Definition pow2 (x : float) : res float :=
  let r := x * x in
  if is_finite x && is_infinity r then Raise OverflowError else Ret r.

(** [math.sqrt(x)]. *)
Definition sqrt (x : float) : res float :=
  if x <? 0 then Raise ValueError else Ret (PrimFloat.sqrt x).

(** [int(x)]: towards zero. *)
Definition to_int (x : float) : res Z :=
  match Prim2SF x with
  | S754_zero _ => Ret 0%Z
  | S754_infinity _ => Raise OverflowError
  | S754_nan => Raise ValueError
  | S754_finite s m e =>
      let k := Z.shiftl (Zpos m) e in
      Ret (if s then (- k)%Z else k)
  end.

(** [j / n] on ints: the quotient, rounded once. *)
Definition truediv (j n : Z) : float :=
  SF2Prim (SFdiv prec emax (Z2SF j) (Z2SF n)).

(** The integer nearest to [num / den], ties to even ([0 <= num],
    [0 < den]). *)
Definition nearest_even (num den : Z) : Z :=
  let q := (num / den)%Z in
  match (2 * (num mod den) ?= den)%Z with
  | Lt => q
  | Gt => (q + 1)%Z
  | Eq => if Z.even q then q else (q + 1)%Z
  end.

(** [round(x, ndigits)]: the decimal with [ndigits] places nearest to
    [x], ties to even, read back as a float; infinities and NaN round
    to themselves. *)
Definition round (x : float) (ndigits : nat) : float :=
  match Prim2SF x with
  | S754_finite s m e =>
      let p := (10 ^ Z.of_nat ndigits)%Z in
      let k := nearest_even (Zpos m * p * 2 ^ Z.max e 0)
                            (2 ^ Z.max (- e) 0) in
      let scaled := match k with
                    | Zpos q => S754_finite s q 0
                    | _ => S754_zero s
                    end in
      SF2Prim (SFdiv prec emax scaled (Z2SF p))
  | _ => x
  end.

(** [time.sleep(t)] on a float. *)
Definition sleep_check (t : float) : option exn :=
  if is_nan t then Some ValueError
  else
    let d := t * 1e9 in
    if negb (-0x1p63 <=? d) || negb (d <? 0x1p63) then Some OverflowError
    else if t <? 0 then Some ValueError else None.

#[export] Instance binary64 : PyFloat float := {
  fone := 1;
  fadd := PrimFloat.add;
  fsub := PrimFloat.sub;
  fmul := PrimFloat.mul;
  fdiv := div;
  fpow2 := pow2;
  fsqrt := sqrt;
  fint := to_int;
  int_truediv := truediv;
  fround := round;
  fabs := PrimFloat.abs;
  flt := PrimFloat.ltb;
  sleep_exn := sleep_check
}.

(** *** The constants of the module *)

Definition ORIGINAL_ROUTE_COORDINATES : list (float * float) :=
  [(-73.957618, 40.776143);
   (-73.957939, 40.776281);
   (-73.959469, 40.77693);
   (-73.959649, 40.777006);
   (-73.961166, 40.777636);
   (-73.960701, 40.778272);
   (-73.959824, 40.777904);
   (-73.959189, 40.777637);
   (-73.959649, 40.777006);
   (-73.960115, 40.776368);
   (-73.960606, 40.775689);
   (-73.961107, 40.774999);
   (-73.96093, 40.774925);
   (-73.960267, 40.774645);
   (-73.959397, 40.77428);
   (-73.959854, 40.773656);
   (-73.960321, 40.773016);
   (-73.959191, 40.77254)].

Definition ROUTE_COORDINATES : res (list (float * float)) :=
  evenly_space_coordinates ORIGINAL_ROUTE_COORDINATES 0.0002.

Definition BIN_COORDINATES : list (float * float) :=
  [(-73.9599, 40.7778);
   (-73.9603, 40.7746);
   (-73.959, 40.7728)].

Definition COORDINATE_TOLERANCE : float := 0.0005.

Definition BINS_TO_RESET : list (string * Z) :=
  [("67cbf9384d042a183ab3e09c"%string, 75%Z);
   ("67cbf9384d042a183ab3e096"%string, 95%Z)].

(** *** A service and a simulator to run the walker with *)

(** A service whose every reply to a report is a failure. *)
Definition failing (n : nat) (r : request (F := float)) : reply :=
  match r with
  | PostLocation _ _ =>
      Failure {| exc_str := "503 Server Error"; exc_response := None |}
  | _ => Reply []
  end.

Definition simulator (speedMultiplier : float) : DriverSimulator :=
  {| base_url := "http://localhost:5000";
     token := Some "token"%string;
     speed := speedMultiplier;
     pause_time := 5;
     headers := [("Content-Type"%string, Some "application/json"%string);
                 ("Authorization"%string, Some "Bearer token"%string)] |}.

End Binary64.

(** ** IEEE binary64: the operations of the specification *)

Module Binary64Math.

Local Open Scope float_scope.

(** [math.floor(x)]: towards minus infinity. *)
Definition floor (x : float) : res Z :=
  match Prim2SF x with
  | S754_zero _ => Ret 0%Z
  | S754_infinity _ => Raise OverflowError
  | S754_nan => Raise ValueError
  | S754_finite s m e => Ret (Z.shiftl (if s then Zneg m else Zpos m) e)
  end.

(** A float that is not below zero: no negative number and no negative
    infinity. *)
Definition not_negative (x : spec_float) : Prop :=
  match x with
  | S754_finite true _ _ | S754_infinity true => False
  | _ => True
  end.

(** A float above zero. *)
Definition above_zero (x : spec_float) : Prop :=
  match x with
  | S754_finite false _ _ | S754_infinity false => True
  | _ => False
  end.

End Binary64Math.

(** *** Arguments and a log-in service to run [main] with *)

Module Binary64Run.

Import Binary64.

Local Open Scope float_scope.

(** The arguments of [--token token --skip-reset] and the defaults. *)
Definition with_token : Args :=
  {| args_url := "http://localhost:5000";
     args_username := "collector1";
     args_password := "password";
     args_speed := 0.4;
     args_pause := 5;
     args_token := Some "token"%string;
     args_skip_reset := true |}.

(** The defaults: no token. *)
Definition without_token : Args :=
  {| args_url := "http://localhost:5000";
     args_username := "collector1";
     args_password := "password";
     args_speed := 0.4;
     args_pause := 5;
     args_token := None;
     args_skip_reset := false |}.

(** Three points one unit apart on a meridian, and a stop at the second. *)
Definition meridian : list (float * float) := [(0, 0); (0, 1); (0, 2)].

Definition meridian_stops : list (float * float) := [(0, 1)].

(** A route of one point. *)
Definition single_point : list (float * float) := [(0, 0)].

(** The tail of a route of two segments, of lengths 2 and 0.5. *)
Definition uneven_tail : list (float * float) := [(0, 2); (0, 2.5)].

(** The example route of the specification. *)
Definition example_route : list (float * float) := [(0, 0); (0, 2)].

(** A segment one and a half times the spacing factor 1. *)
Definition sparse_route : list (float * float) := [(0, 0); (0, 1.5)].

(** A route that stays at its first waypoint once. *)
Definition repeated_route : list (float * float) :=
  [(0, 0); (0, 0); (0, 2)].


(** A service that accepts every request. *)
Definition accepting (n : nat) (r : request (F := float)) : reply :=
  Reply [].

(** A log-in service that is down. *)
Definition down (base_url username password : string) : reply :=
  Failure {| exc_str := "Connection refused"; exc_response := None |}.

(** A log-in service that gives a token. *)
Definition up (base_url username password : string) : reply :=
  Reply [("token", "secret")]%string.

End Binary64Run.
(** ** Facts on results and lists *)

Lemma rbind_ret_inv {A B : Type} (m : res A) (k : A -> res B) (b : B) :
  rbind m k = Ret b -> exists a, m = Ret a /\ k a = Ret b.
Proof.
  destruct m as [a|e]; simpl; intros Hk; [exists a; auto | discriminate].
Qed.

Lemma getitem_app_here {A : Type} (pre : list A) (a : A) (post : list A) :
  getitem (pre ++ a :: post) (length pre) = Ret a.
Proof.
  unfold getitem. rewrite nth_error_app2 by lia.
  rewrite Nat.sub_diag. reflexivity.
Qed.

Lemma getitem_cons_length {A : Type} (a : A) (l : list A) (d : A) :
  l <> [] -> getitem (a :: l) (length l) = Ret (last l d).
Proof.
  intros Hne. destruct (exists_last Hne) as [l' [z ->]].
  rewrite last_last, length_app. simpl.
  replace (length l' + 1)%nat with (length (a :: l')) by (simpl; lia).
  apply (getitem_app_here (a :: l') z []).
Qed.

Lemma last_app_nonempty {A : Type} (l l' : list A) (d : A) :
  l' <> [] -> last (l ++ l') d = last l' d.
Proof.
  intros Hne. induction l as [|x l IH]; [reflexivity|].
  simpl. destruct (l ++ l') eqn:Happ; [|exact IH].
  apply app_eq_nil in Happ. destruct Happ as [_ Happ]. contradiction.
Qed.

Lemma Subseq_refl {A : Type} (l : list A) : Subseq l l.
Proof. induction l; constructor; assumption. Qed.

Lemma Subseq_prefix {A : Type} (pre l1 l2 : list A) :
  Subseq l1 l2 -> Subseq l1 (pre ++ l2).
Proof.
  intros Hs. induction pre as [|x pre IH]; [exact Hs|].
  simpl. constructor. exact IH.
Qed.

Lemma Subseq_In {A : Type} (l1 l2 : list A) (x : A) :
  Subseq l1 l2 -> In x l1 -> In x l2.
Proof.
  induction 1 as [|y l1 l2 _ IH|y l1 l2 _ IH]; simpl; intros Hin.
  - exact Hin.
  - right. apply IH. exact Hin.
  - destruct Hin as [Heq|Hin]; [left; exact Heq|right; apply IH; exact Hin].
Qed.

Lemma nth_error_last {A : Type} (l : list A) (d : A) :
  l <> [] -> nth_error l (length l - 1) = Some (last l d).
Proof.
  intros Hne. destruct (exists_last Hne) as [l' [z ->]].
  rewrite last_last, length_app. simpl.
  replace (length l' + 1 - 1)%nat with (length l') by lia.
  rewrite nth_error_app2 by lia. rewrite Nat.sub_diag. reflexivity.
Qed.


Lemma adjacent_all_nth {A : Type} (R : A -> A -> Prop) (l : list A) :
  (forall i x y, nth_error l i = Some x -> nth_error l (S i) = Some y ->
                 R x y) ->
  adjacent_all R l.
Proof.
  induction l as [|a tl IH]; intros Hall; [exact I|].
  destruct tl as [|b tl]; [exact I|].
  split.
  - apply (Hall 0%nat); reflexivity.
  - apply IH. intros i x y Hx Hy. apply (Hall (S i)); assumption.
Qed.


Lemma range_empty (a b : Z) : (b <= a)%Z -> range a b = [].
Proof.
  intros Hle. unfold range.
  replace (Z.to_nat (b - a)) with 0%nat by lia. reflexivity.
Qed.

Lemma length_range (a b : Z) : length (range a b) = Z.to_nat (b - a).
Proof. unfold range. rewrite length_map, length_seq. reflexivity. Qed.

Lemma nth_range (a b : Z) (k : nat) (d : Z) :
  (k < Z.to_nat (b - a))%nat -> nth k (range a b) d = (a + Z.of_nat k)%Z.
Proof.
  intros Hk. unfold range.
  rewrite nth_indep with (d' := (a + Z.of_nat 0)%Z)
    by (rewrite length_map, length_seq; exact Hk).
  rewrite map_nth with (f := fun k => (a + Z.of_nat k)%Z).
  rewrite seq_nth by exact Hk. reflexivity.
Qed.


(** ** The densifier, loop against recursion *)

Section DensifierFacts.

Context {F : Type} `{PyFloat F}.

Implicit Types (a b : coord (F := F)) (rest result : list (coord (F := F))).

Lemma chain_nonempty a b rest s tl :
  chain a (b :: rest) s = Ret tl -> tl <> [].
Proof.
  simpl. intros Hc.
  apply rbind_ret_inv in Hc. destruct Hc as [n [_ Hc]].
  apply rbind_ret_inv in Hc. destruct Hc as [tl' [_ Hc]].
  injection Hc as <-. intros Habs.
  apply app_eq_nil in Habs. destruct Habs as [_ Habs]. discriminate.
Qed.

(** The last point a chain adds is the last point of the route. *)
Lemma chain_last a rest s tl d :
  chain a rest s = Ret tl -> rest <> [] -> last tl d = last rest d.
Proof.
  revert a tl. induction rest as [|b rest IH]; intros a tl Hc Hne.
  - contradiction.
  - simpl in Hc.
    apply rbind_ret_inv in Hc. destruct Hc as [n [_ Hc]].
    apply rbind_ret_inv in Hc. destruct Hc as [tl' [Htl' Hc]].
    injection Hc as <-.
    rewrite last_app_nonempty by discriminate.
    destruct rest as [|c rest].
    + simpl in Htl'. injection Htl' as <-. reflexivity.
    + assert (Hne' : tl' <> []) by (eapply chain_nonempty; eassumption).
      specialize (IH b tl' Htl' ltac:(discriminate)).
      destruct tl' as [|p tl']; [contradiction|].
      change (last (b :: p :: tl') d) with (last (p :: tl') d).
      change (last (b :: c :: rest) d) with (last (c :: rest) d).
      exact IH.
Qed.

(** The outer loop, started at index [length pre] on a route
    [pre ++ a :: rest], appends the chain from [a] short of its last
    point, which line 59 adds. *)
Lemma segments_chain pre a rest s result :
  segments (pre ++ a :: rest) s (seq (length pre) (length rest)) result
  = (tl <- chain a rest s ;; Ret (result ++ removelast tl)).
Proof.
  revert pre a result. induction rest as [|b rest IH]; intros pre a result.
  - simpl. rewrite app_nil_r. reflexivity.
  - cbn [length seq segments chain]. unfold segment.
    rewrite getitem_app_here.
    replace (pre ++ a :: b :: rest) with ((pre ++ [a]) ++ b :: rest)
      by (rewrite <- app_assoc; reflexivity).
    replace (length pre + 1)%nat with (length (pre ++ [a]))
      by (rewrite length_app; reflexivity).
    rewrite getitem_app_here. cbn [rbind].
    destruct (num_points a b s) as [n|e]; cbn [rbind]; [|reflexivity].
    replace (S (length pre)) with (length (pre ++ [a]))
      by (rewrite length_app; simpl; lia).
    destruct rest as [|c rest].
    + replace (Z.of_nat (length pre) <?
               Z.of_nat (length ((pre ++ [a]) ++ [b])) - 2)%Z with false
        by (symmetry; apply Z.ltb_ge; rewrite !length_app; simpl; lia).
      simpl. rewrite removelast_last. reflexivity.
    + replace (Z.of_nat (length pre) <?
               Z.of_nat (length ((pre ++ [a]) ++ b :: c :: rest)) - 2)%Z
        with true
        by (symmetry; apply Z.ltb_lt; rewrite !length_app; simpl; lia).
      cbn [rbind]. rewrite IH.
      destruct (chain b (c :: rest) s) as [tl|e] eqn:Htl;
        cbn [rbind]; [|reflexivity].
      assert (Hne : tl <> []) by (eapply chain_nonempty; eassumption).
      f_equal.
      rewrite removelast_app by discriminate.
      destruct tl as [|p tl]; [contradiction|].
      cbn [removelast]. rewrite <- !app_assoc. reflexivity.
Qed.

(** [evenly_space_coordinates] on a route of two points or more: the
    first point, then the chain. *)
Lemma evenly_space_coordinates_chain a b rest s :
  evenly_space_coordinates (a :: b :: rest) s
  = (tl <- chain a (b :: rest) s ;; Ret (a :: tl)).
Proof.
  unfold evenly_space_coordinates.
  cbn [length Nat.ltb Nat.leb getitem nth_error rbind].
  replace (S (S (length rest)) - 1)%nat with (length (b :: rest))
    by (simpl; lia).
  pose proof (segments_chain [] a (b :: rest) s [a]) as Hseg.
  change ([] ++ a :: b :: rest) with (a :: b :: rest) in Hseg.
  change (length (@nil coord)) with 0%nat in Hseg.
  rewrite Hseg. clear Hseg.
  destruct (chain a (b :: rest) s) as [tl|e] eqn:Htl;
    cbn [rbind]; [|reflexivity].
  assert (Hne : tl <> []) by (eapply chain_nonempty; eassumption).
  pose proof (chain_last a (b :: rest) s tl b Htl ltac:(discriminate))
    as Hlast.
  rewrite (getitem_cons_length a (b :: rest) b) by discriminate.
  cbn [rbind]. rewrite <- Hlast, <- app_assoc.
  rewrite <- app_removelast_last by exact Hne. reflexivity.
Qed.

(** The vertices of the route are in the chain as they are, in order:
    the chain only puts points between them. *)
Lemma chain_subseq a rest s tl :
  chain a rest s = Ret tl -> Subseq rest tl.
Proof.
  revert a tl. induction rest as [|b rest IH]; intros a tl Hc.
  - simpl in Hc. injection Hc as <-. constructor.
  - simpl in Hc.
    apply rbind_ret_inv in Hc. destruct Hc as [n [_ Hc]].
    apply rbind_ret_inv in Hc. destruct Hc as [tl' [Htl' Hc]].
    injection Hc as <-.
    apply Subseq_prefix. apply Subseq_keep. eapply IH. exact Htl'.
Qed.

Lemma evenly_space_coordinates_subseq (cs : list (coord (F := F))) s out :
  evenly_space_coordinates cs s = Ret out -> Subseq cs out.
Proof.
  intros Hout. destruct cs as [|a [|b rest]].
  - injection Hout as <-. constructor.
  - injection Hout as <-. apply Subseq_refl.
  - rewrite evenly_space_coordinates_chain in Hout.
    apply rbind_ret_inv in Hout. destruct Hout as [tl [Htl Hout]].
    injection Hout as <-. apply Subseq_keep.
    eapply chain_subseq. exact Htl.
Qed.

(** The densified route begins and ends where the route does. *)
Lemma evenly_space_coordinates_ends (cs : list (coord (F := F))) s out d :
  evenly_space_coordinates cs s = Ret out ->
  hd_error out = hd_error cs /\ last out d = last cs d.
Proof.
  intros Hout. destruct cs as [|a [|b rest]].
  - injection Hout as <-. split; reflexivity.
  - injection Hout as <-. split; reflexivity.
  - rewrite evenly_space_coordinates_chain in Hout.
    apply rbind_ret_inv in Hout. destruct Hout as [tl [Htl Hout]].
    injection Hout as <-. split; [reflexivity|].
    assert (Hne : tl <> []) by (eapply chain_nonempty; eassumption).
    pose proof (chain_last a (b :: rest) s tl d Htl ltac:(discriminate))
      as Hlast.
    destruct tl as [|p tl]; [contradiction|].
    change (last (a :: p :: tl) d) with (last (p :: tl) d).
    rewrite Hlast. reflexivity.
Qed.

(** The densifier returns when the piece count of every segment is
    defined. *)
Lemma chain_defined a rest s :
  segments_defined a rest s -> exists tl, chain a rest s = Ret tl.
Proof.
  revert a. induction rest as [|b rest IH]; intros a Hdef.
  - exists []. reflexivity.
  - destruct Hdef as [[n Hn] Hdef]. destruct (IH b Hdef) as [tl Htl].
    exists (intermediates a b n ++ b :: tl).
    simpl. rewrite Hn, Htl. reflexivity.
Qed.

Lemma evenly_space_coordinates_defined (cs : list (coord (F := F))) s :
  route_defined cs s -> exists out, evenly_space_coordinates cs s = Ret out.
Proof.
  intros Hdef. destruct cs as [|a [|b rest]].
  - exists []. reflexivity.
  - exists [a]. reflexivity.
  - destruct (chain_defined a (b :: rest) s Hdef) as [tl Htl].
    exists (a :: tl). rewrite evenly_space_coordinates_chain, Htl.
    reflexivity.
Qed.

(** C9. A route of fewer than 2 points comes back unchanged, and no
    error is raised, whatever the spacing factor (also 0, for which any
    longer route raises [ZeroDivisionError]). *)
Theorem short_route_unchanged (route : list (coord (F := F)))
        (spacingFactor : F) :
  (length route < 2)%nat ->
  evenly_space_coordinates route spacingFactor = Ret route.
Proof.
  intros Hlen. unfold evenly_space_coordinates.
  destruct (length route <? 2)%nat eqn:Hguard; [reflexivity|].
  apply Nat.ltb_ge in Hguard. lia.
Qed.

(** C10. Every vertex of the route is in the densified route as it is
    and in order: the densified route is the route with points put
    between its vertices.  Only those points are built by [round]
    ([intermediate]); no vertex goes through it, whatever [round] does to
    a number with more than 6 decimal places. *)
Theorem vertices_pass_through (route : list (coord (F := F)))
        (spacingFactor : F) :
  route_defined route spacingFactor ->
  exists out,
    evenly_space_coordinates route spacingFactor = Ret out
    /\ Subseq route out
    /\ (forall v, In v route -> In v out).
Proof.
  intros Hdef.
  destruct (evenly_space_coordinates_defined route spacingFactor Hdef)
    as [out Hout].
  exists out. split; [exact Hout|].
  pose proof (evenly_space_coordinates_subseq route spacingFactor out Hout)
    as Hsub.
  split; [exact Hsub|].
  intros v Hv. eapply Subseq_In; eassumption.
Qed.

End DensifierFacts.

(** ** The matcher and the walker *)

Section WalkerFacts.

Context {F : Type} `{PyFloat F}.

Variable ROUTE_COORDINATES : list (coord (F := F)).
Variable BIN_COORDINATES : list (coord (F := F)).
Variable COORDINATE_TOLERANCE : F.
Variable BINS_TO_RESET : list (string * Z).

Local Abbreviation near := (_is_near_waypoint COORDINATE_TOLERANCE).
Local Abbreviation search := (match_bin COORDINATE_TOLERANCE).
Local Abbreviation outcome :=
  (step_outcome ROUTE_COORDINATES BIN_COORDINATES COORDINATE_TOLERANCE).
Local Abbreviation plan :=
  (walk_plan ROUTE_COORDINATES BIN_COORDINATES COORDINATE_TOLERANCE).
Local Abbreviation step :=
  (drive_step ROUTE_COORDINATES BIN_COORDINATES COORDINATE_TOLERANCE).
Local Abbreviation drive :=
  (drive_route ROUTE_COORDINATES BIN_COORDINATES COORDINATE_TOLERANCE
               BINS_TO_RESET).

(** *** The matcher *)

Lemma near_covers (position stop : coord (F := F)) :
  near position stop = true <-> covers COORDINATE_TOLERANCE stop position.
Proof.
  unfold _is_near_waypoint, covers. apply andb_true_iff.
Qed.

Lemma match_bin_some position bins k idx :
  search position bins k = Some idx ->
  (k <= idx)%nat
  /\ (exists stop, nth_error bins (idx - k) = Some stop
                   /\ near position stop = true)
  /\ (forall j stop, (j < idx - k)%nat -> nth_error bins j = Some stop ->
                     near position stop = false).
Proof.
  revert k. induction bins as [|b bins IH]; intros k Hs; [discriminate|].
  simpl in Hs. destruct (near position b) eqn:Hb.
  - injection Hs as <-. rewrite Nat.sub_diag. split; [lia|]. split.
    + exists b. split; [reflexivity|exact Hb].
    + intros j stop Hj. lia.
  - apply IH in Hs. destruct Hs as [Hle [[stop [Hnth Hnear]] Hbefore]].
    split; [lia|]. split.
    + exists stop. split; [|exact Hnear].
      replace (idx - k)%nat with (S (idx - S k)) by lia. exact Hnth.
    + intros j stop' Hj Hnth'. destruct j as [|j].
      * simpl in Hnth'. injection Hnth' as <-. exact Hb.
      * simpl in Hnth'. apply (Hbefore j); [lia|exact Hnth'].
Qed.

Lemma match_bin_none position bins k :
  search position bins k = None ->
  forall stop, In stop bins -> near position stop = false.
Proof.
  revert k. induction bins as [|b bins IH]; intros k Hs stop Hin.
  - contradiction.
  - simpl in Hs. destruct (near position b) eqn:Hb; [discriminate|].
    destruct Hin as [<-|Hin]; [exact Hb|]. eapply IH; eassumption.
Qed.

Lemma match_bin_in_range position bins k idx :
  search position bins k = Some idx ->
  (k <= idx < k + length bins)%nat.
Proof.
  revert k. induction bins as [|b bins IH]; intros k Hs; [discriminate|].
  simpl in Hs. destruct (near position b).
  - injection Hs as <-. simpl. lia.
  - apply IH in Hs. simpl. lia.
Qed.

Lemma match_bin_none_intro position bins k :
  (forall stop, In stop bins -> ~ covers COORDINATE_TOLERANCE stop position)
  -> search position bins k = None.
Proof.
  revert k. induction bins as [|b bins IH]; intros k Hno; [reflexivity|].
  simpl. destruct (near position b) eqn:Hb.
  - exfalso. apply (Hno b); [left; reflexivity|].
    apply near_covers. exact Hb.
  - apply IH. intros stop Hin. apply Hno. right. exact Hin.
Qed.

(** *** The plan of a walk *)

(** A turn of the loop at a point near no bin raises nothing when the
    sleep between two points is defined. *)
Lemma step_outcome_clear self i coords t :
  search coords BIN_COORDINATES 0 = None ->
  fdiv fone (speed self) = Ret t -> sleep_exn t = None ->
  outcome self i coords = Ret tt.
Proof.
  intros Hnone Hdiv Hsleep. unfold step_outcome.
  rewrite Hnone, Hdiv. cbn [rbind]. rewrite Hsleep.
  destruct (Z.of_nat i <? Z.of_nat (length ROUTE_COORDINATES) - 1)%Z;
    reflexivity.
Qed.

Lemma walk_plan_clear self t l :
  (forall coords, In coords l -> search coords BIN_COORDINATES 0 = None) ->
  fdiv fone (speed self) = Ret t -> sleep_exn t = None ->
  forall i, plan self i l = (Ret tt, l).
Proof.
  intros Hnone Hdiv Hsleep.
  induction l as [|coords l IH]; intros i; [reflexivity|].
  cbn [walk_plan].
  rewrite (step_outcome_clear self i coords t) by auto using in_eq.
  rewrite IH by (intros c Hc; apply Hnone; right; exact Hc).
  reflexivity.
Qed.



Lemma walk_plan_head self i l :
  nth_error (snd (plan self i l)) 0 = nth_error l 0.
Proof.
  destruct l as [|c l]; [reflexivity|]. cbn [walk_plan].
  destruct (outcome self i c) as [[]|e]; [|reflexivity].
  destruct (plan self (S i) l); reflexivity.
Qed.

(** The plan reports the points of the route in order, and goes on to
    the next point after every turn that raises nothing. *)
Lemma walk_plan_next self l :
  forall i k coords,
    nth_error (snd (plan self i l)) k = Some coords ->
    nth_error l k = Some coords
    /\ (outcome self (i + k) coords = Ret tt ->
        nth_error (snd (plan self i l)) (S k) = nth_error l (S k)).
Proof.
  induction l as [|c l IH]; intros i k coords Hk.
  - destruct k; discriminate.
  - cbn [walk_plan] in *.
    destruct (outcome self i c) as [[]|e] eqn:Hc.
    + pose proof (walk_plan_head self (S i) l) as Hhead.
      specialize (IH (S i)).
      destruct (plan self (S i) l) as [r ps]. cbn [snd] in *.
      destruct k as [|k].
      * injection Hk as <-. split; [reflexivity|]. intros _. exact Hhead.
      * cbn [nth_error] in Hk |- *.
        destruct (IH k coords Hk) as [Hnth Hnext].
        split; [exact Hnth|].
        replace (i + S k)%nat with (S i + k)%nat by lia. exact Hnext.
    + cbn [snd] in *. destruct k as [|k].
      * injection Hk as <-. split; [reflexivity|].
        rewrite Nat.add_0_r. rewrite Hc. discriminate.
      * destruct k; discriminate.
Qed.

(** *** The reading of logs *)

Lemma reports_app (l1 l2 : list (event (F := F))) :
  reports (l1 ++ l2) = reports l1 ++ reports l2.
Proof.
  induction l1 as [|e l1 IH]; [reflexivity|].
  destruct e as [[b f|b f|lon lat] a|t|m]; simpl; rewrite IH; reflexivity.
Qed.

Lemma reports_rev (l : list (event (F := F))) :
  reports (rev l) = rev (reports l).
Proof.
  induction l as [|e l IH]; [reflexivity|].
  simpl rev. rewrite reports_app, IH.
  destruct e as [[b f|b f|lon lat] a|t|m]; simpl;
    rewrite ?app_nil_r; reflexivity.
Qed.

Lemma step_sleeps_app (l1 l2 : list (event (F := F))) :
  step_sleeps (l1 ++ l2) = step_sleeps l1 ++ step_sleeps l2.
Proof.
  induction l1 as [|e l1 IH]; [reflexivity|].
  destruct e as [r a|[z|t]|m]; simpl; rewrite IH; reflexivity.
Qed.

Lemma step_sleeps_rev (l : list (event (F := F))) :
  step_sleeps (rev l) = rev (step_sleeps l).
Proof.
  induction l as [|e l IH]; [reflexivity|].
  simpl rev. rewrite step_sleeps_app, IH.
  destruct e as [r a|[z|t]|m]; simpl; rewrite ?app_nil_r; reflexivity.
Qed.

Lemma reported_log (w : world (F := F)) :
  reported w = rev (map fst (reports (log w))).
Proof.
  unfold reported, trace. rewrite reports_rev, map_rev. reflexivity.
Qed.

(** *** Running the walker *)

Variable srv : service (F := F).

(** A failed report is caught: the error is printed right after the
    request and a dict comes back. *)
Lemma update_location_run longitude latitude (w : world (F := F)) :
  update_location srv longitude latitude w =
  match srv (sent w) (PostLocation longitude latitude) with
  | Reply body =>
      (Ret body,
       {| sent := S (sent w);
          log := Request (PostLocation longitude latitude) (Reply body)
                 :: log w |})
  | Failure e =>
      (Ret [("error"%string, exc_str e)],
       {| sent := S (sent w);
          log := match exc_response e with
                 | Some text => [Print (MsgResponse text)]
                 | None => []
                 end
                 ++ Print (MsgUpdateError (exc_str e))
                 :: Request (PostLocation longitude latitude) (Failure e)
                 :: log w |})
  end.
Proof.
  unfold update_location, bind, send, print, emit, ret.
  destruct (srv (sent w) (PostLocation longitude latitude)) as [body|e];
    [reflexivity|].
  destruct (exc_response e); reflexivity.
Qed.

Ltac case_split :=
  repeat (cbv beta iota delta
              [bind print emit lift time_sleep raise ret rbind];
          cbn [sent log];
          match goal with
          | |- context [match ?x with _ => _ end] =>
              lazymatch x with
              | context [match _ with _ => _ end] => fail
              | _ => destruct x eqn:?
              end
          end).

(** A log that grew by known events still has the message of every
    failed report. *)
Ltac solve_recorded :=
  let Hrec := fresh "Hrec" in
  let Hin := fresh "Hin" in
  let coords := fresh "coords" in
  let e := fresh "e" in
  unfold recorded; cbn [log reports app];
  intros Hrec coords e Hin; cbn [In] in Hin |- *;
  repeat match goal with
         | Hor : _ \/ _ |- _ => destruct Hor as [Hor|Hor]
         end;
  try match goal with
      | Heq : (_, _) = (_, Failure _) |- _ => inversion Heq; subst
      end;
  try (apply Hrec in Hin); tauto.

(** One turn of the loop: it reports its position once, ends as
    [step_outcome] says, and sleeps [1.0 / speed] between two points. *)
Lemma drive_step_run self i coords (w : world (F := F)) :
  exists w',
    step srv self i coords w = (outcome self i coords, w')
    /\ sent w' = S (sent w)
    /\ reports (log w')
       = (coords, srv (sent w) (PostLocation (fst coords) (snd coords)))
         :: reports (log w)
    /\ (forall t, In t (step_sleeps (log w')) ->
                  In t (step_sleeps (log w))
                  \/ (fdiv fone (speed self) = Ret t
                      /\ sleep_exn t = None))
    /\ (recorded (log w) -> recorded (log w')).
Proof.
  destruct coords as [longitude latitude].
  unfold drive_step, step_outcome.
  unfold bind at 1. unfold print at 1, emit at 1.
  unfold bind at 1. rewrite update_location_run.
  cbn [sent log fst snd].
  destruct (srv (sent w) (PostLocation longitude latitude)) as [body|e].
  - unfold bind, print, emit, lift, time_sleep, raise, ret, rbind.
    case_split; eexists; (split; [reflexivity|]);
      (split; [reflexivity|]); (split; [reflexivity|]);
      (split; [|solve_recorded]);
      cbn [log step_sleeps In]; intros t Ht; try (left; exact Ht).
    all: destruct Ht as [<-|Ht];
      [right; split; (reflexivity || assumption)|left; exact Ht].
  - unfold bind, print, emit, lift, time_sleep, raise, ret, rbind.
    cbn [dict_get String.eqb Ascii.eqb Bool.eqb].
    case_split; eexists; (split; [reflexivity|]);
      (split; [reflexivity|]); (split; [reflexivity|]);
      (split; [|solve_recorded]);
      cbn [log step_sleeps In app]; intros t Ht; try (left; exact Ht).
    all: destruct Ht as [<-|Ht];
      [right; split; (reflexivity || assumption)|left; exact Ht].
Qed.

(** The loop ends as [walk_plan] says and reports the positions of the
    plan, whatever the service replies. *)
Lemma for_each_step_run self l :
  forall i (w : world (F := F)),
  exists w',
    for_each (step srv self) i l w = (fst (plan self i l), w')
    /\ map fst (reports (log w'))
       = rev (snd (plan self i l)) ++ map fst (reports (log w))
    /\ (forall t, In t (step_sleeps (log w')) ->
                  In t (step_sleeps (log w))
                  \/ (fdiv fone (speed self) = Ret t
                      /\ sleep_exn t = None))
    /\ (recorded (log w) -> recorded (log w')).
Proof.
  induction l as [|coords l IH]; intros i w.
  - exists w. simpl. auto.
  - destruct (drive_step_run self i coords w)
      as [w1 [Hrun [_ [Hrep [Hsl Hrec]]]]].
    cbn [for_each walk_plan]. unfold bind. rewrite Hrun.
    destruct (outcome self i coords) as [[]|e].
    + destruct (IH (S i) w1) as [w' [Hrun' [Hrep' [Hsl' Hrec']]]].
      exists w'. destruct (plan self (S i) l) as [r ps].
      cbn [fst snd] in *. split; [exact Hrun'|]. split; [|split].
      * rewrite Hrep', Hrep. cbn [map fst rev].
        rewrite <- app_assoc. reflexivity.
      * intros t Ht. destruct (Hsl' t Ht) as [Hin|Hok]; [|right; exact Hok].
        apply Hsl. exact Hin.
      * intros Hw. apply Hrec', Hrec, Hw.
    + exists w1. cbn [fst snd]. split; [reflexivity|]. split; [|split].
      * rewrite Hrep. reflexivity.
      * exact Hsl.
      * exact Hrec.
Qed.

(** Resetting the fill levels raises nothing, reports no position and
    does not sleep. *)
Lemma reset_bin_run entry (w : world (F := F)) :
  exists w',
    reset_bin srv entry w = (Ret tt, w')
    /\ reports (log w') = reports (log w)
    /\ step_sleeps (log w') = step_sleeps (log w)
    /\ (recorded (log w) -> recorded (log w')).
Proof.
  destruct entry as [bin_id fill_level]. unfold reset_bin, send.
  case_split; eexists; (split; [reflexivity|]); (split; [reflexivity|]);
    (split; [reflexivity|solve_recorded]).
Qed.

Lemma reset_bin_fill_levels_run (w : world (F := F)) :
  exists w',
    reset_bin_fill_levels BINS_TO_RESET srv w = (Ret tt, w')
    /\ reports (log w') = reports (log w)
    /\ step_sleeps (log w') = step_sleeps (log w)
    /\ (recorded (log w) -> recorded (log w')).
Proof.
  unfold reset_bin_fill_levels. unfold bind at 1, print, emit.
  set (w0 := {| sent := sent w;
                log := Print (MsgResetting (length BINS_TO_RESET))
                       :: log w |}).
  assert (Hloop : forall l i (w1 : world (F := F)),
             exists w',
               for_each (fun _ entry => reset_bin srv entry) i l w1
               = (Ret tt, w')
               /\ reports (log w') = reports (log w1)
               /\ step_sleeps (log w') = step_sleeps (log w1)
               /\ (recorded (log w1) -> recorded (log w'))).
  { induction l as [|entry l IH]; intros i w1.
    - exists w1. simpl. auto.
    - destruct (reset_bin_run entry w1) as [w2 [Hrun [Hrep [Hsl Hrec]]]].
      destruct (IH (S i) w2) as [w' [Hrun' [Hrep' [Hsl' Hrec']]]].
      exists w'. cbn [for_each]. unfold bind. rewrite Hrun.
      split; [exact Hrun'|]. split; [congruence|].
      split; [congruence|]. intros Hw. apply Hrec', Hrec, Hw. }
  destruct (Hloop BINS_TO_RESET 0%nat w0) as [w' [Hrun [Hrep [Hsl Hrec]]]].
  exists w'. split; [exact Hrun|]. split; [exact Hrep|].
  split; [exact Hsl|]. intros Hw. apply Hrec. unfold w0.
  revert Hw. solve_recorded.
Qed.

(** [drive_route] ends as the plan of its route says and reports the
    positions of the plan; each sleep between two points lasts
    [1.0 / speed]. *)
Lemma drive_route_run self (w : world (F := F)) :
  exists w',
    drive srv self w = (fst (plan self 0 ROUTE_COORDINATES), w')
    /\ reported w' = reported w ++ snd (plan self 0 ROUTE_COORDINATES)
    /\ (forall t, In t (step_sleeps (log w')) ->
                  In t (step_sleeps (log w))
                  \/ (fdiv fone (speed self) = Ret t
                      /\ sleep_exn t = None))
    /\ (recorded (log w) -> recorded (log w')).
Proof.
  destruct (reset_bin_fill_levels_run w)
    as [w1 [Hreset [Hrep1 [Hsl1 Hrec1]]]].
  set (w2 := {| sent := sent w1;
                log := Print (MsgSpeed (speed self) (pause_time self))
                       :: Print (MsgStarting (length ROUTE_COORDINATES)
                                             (length BIN_COORDINATES))
                       :: log w1 |}).
  destruct (for_each_step_run self ROUTE_COORDINATES 0%nat w2)
    as [w3 [Hloop [Hrep3 [Hsl3 Hrec3]]]].
  assert (Hrec : recorded (log w) -> recorded (log w3)).
  { intros Hw. apply Hrec3. apply Hrec1 in Hw. unfold w2.
    revert Hw. solve_recorded. }
  assert (Hrun : drive srv self w
                 = match fst (plan self 0 ROUTE_COORDINATES) with
                   | Ret _ =>
                       (Ret tt, {| sent := sent w3;
                                   log := Print MsgCompleted :: log w3 |})
                   | Raise e => (Raise e, w3)
                   end).
  { unfold drive_route. unfold bind at 1. rewrite Hreset.
    unfold bind at 1, print at 1, emit at 1.
    unfold bind at 1, print at 1, emit at 1.
    unfold bind at 1. cbn [sent log]. fold w2. rewrite Hloop.
    destruct (fst (plan self 0 ROUTE_COORDINATES)); reflexivity. }
  assert (Hrep : map fst (reports (log w3))
                 = rev (snd (plan self 0 ROUTE_COORDINATES))
                   ++ map fst (reports (log w))).
  { rewrite Hrep3. unfold w2. cbn [log reports]. rewrite Hrep1.
    reflexivity. }
  assert (Hsl : forall t, In t (step_sleeps (log w3)) ->
                          In t (step_sleeps (log w))
                          \/ (fdiv fone (speed self) = Ret t
                              /\ sleep_exn t = None)).
  { intros t Ht. destruct (Hsl3 t Ht) as [Hin|Hok]; [|right; exact Hok].
    left. unfold w2 in Hin. cbn [log step_sleeps] in Hin.
    rewrite Hsl1 in Hin. exact Hin. }
  rewrite Hrun.
  destruct (fst (plan self 0 ROUTE_COORDINATES)) as [[]|e].
  - eexists. split; [reflexivity|]. split; [|split].
    + rewrite !reported_log. cbn [log reports]. rewrite Hrep.
      rewrite rev_app_distr, rev_involutive. reflexivity.
    + exact Hsl.
    + intros Hw. apply Hrec in Hw. revert Hw. solve_recorded.
  - exists w3. split; [reflexivity|]. split; [|split].
    + rewrite !reported_log. rewrite Hrep.
      rewrite rev_app_distr, rev_involutive. reflexivity.
    + exact Hsl.
    + exact Hrec.
Qed.

(** The constructor checks nothing: it returns a simulator that holds
    the speed and the pause it was given. *)
Lemma init_run url tok (speedMultiplier : F) (dwellSeconds : Z)
      (w : world (F := F)) :
  exists self w',
    __init__ url tok speedMultiplier dwellSeconds w = (Ret self, w')
    /\ speed self = speedMultiplier
    /\ pause_time self = dwellSeconds.
Proof.
  unfold __init__, bind, print, emit, ret.
  destruct (negb (has_token tok)); eexists; eexists;
    (split; [reflexivity|split; reflexivity]).
Qed.

Lemma int_sleep_exn_not_zero_division (z : Z) :
  int_sleep_exn z <> Some ZeroDivisionError.
Proof.
  unfold int_sleep_exn.
  destruct ((z * 10 ^ 9 <? - 2 ^ 63) || (2 ^ 63 <=? z * 10 ^ 9))%Z;
    [discriminate|].
  destruct (z <? 0)%Z; discriminate.
Qed.

End WalkerFacts.

(** *** Properties of the matcher and the walker *)

Section WalkerClaims.

Context {F : Type} `{PyFloat F}.

Variable ROUTE_COORDINATES : list (coord (F := F)).
Variable BIN_COORDINATES : list (coord (F := F)).
Variable COORDINATE_TOLERANCE : F.
Variable BINS_TO_RESET : list (string * Z).
Variable srv : service (F := F).

Local Abbreviation search := (match_bin COORDINATE_TOLERANCE).
Local Abbreviation outcome :=
  (step_outcome ROUTE_COORDINATES BIN_COORDINATES COORDINATE_TOLERANCE).
Local Abbreviation plan :=
  (walk_plan ROUTE_COORDINATES BIN_COORDINATES COORDINATE_TOLERANCE).
Local Abbreviation drive :=
  (drive_route ROUTE_COORDINATES BIN_COORDINATES COORDINATE_TOLERANCE
               BINS_TO_RESET).
Local Abbreviation drive_run :=
  (drive_route_run ROUTE_COORDINATES BIN_COORDINATES COORDINATE_TOLERANCE
                   BINS_TO_RESET).

(** C5. The search returns the first stop, in the order given, whose
    square tolerance region contains the position, and nothing when no
    region does; of two stops [[A; B]] that both cover the position,
    [A] is returned. *)
Theorem match_returns_first_covering_stop
        (position : coord (F := F)) (stops : list (coord (F := F))) :
  match search position stops 0 with
  | Some idx =>
      exists stop,
        nth_error stops idx = Some stop
        /\ covers COORDINATE_TOLERANCE stop position
        /\ forall j earlier,
            (j < idx)%nat -> nth_error stops j = Some earlier ->
            ~ covers COORDINATE_TOLERANCE earlier position
  | None =>
      forall stop, In stop stops ->
                   ~ covers COORDINATE_TOLERANCE stop position
  end
  /\ forall A B,
      covers COORDINATE_TOLERANCE A position ->
      covers COORDINATE_TOLERANCE B position ->
      search position [A; B] 0 = Some 0%nat.
Proof.
  split.
  - destruct (search position stops 0) as [idx|] eqn:Hs.
    + apply match_bin_some in Hs.
      destruct Hs as [_ [[stop [Hnth Hnear]] Hbefore]].
      rewrite Nat.sub_0_r in *.
      exists stop. split; [exact Hnth|]. split.
      * apply near_covers. exact Hnear.
      * intros j earlier Hj Hnth' Hcov. apply near_covers in Hcov.
        rewrite (Hbefore j earlier Hj Hnth') in Hcov. discriminate.
    + intros stop Hin Hcov. apply near_covers in Hcov.
      rewrite (match_bin_none _ _ _ _ Hs stop Hin) in Hcov. discriminate.
  - intros A B HA _. apply near_covers in HA.
    simpl. rewrite HA. reflexivity.
Qed.

(** C6. A report that fails does not stop the walk.  Whatever the
    service replies, [drive_route] ends the same way and reports the
    same positions.  When the report of step [k] fails, its error
    message is in the trace, and when step [k] raises nothing on its own
    sleeps and is not the last step, the position of step [k + 1] is
    reported next. *)
Theorem failed_report_does_not_stop_walk
        (self : DriverSimulator (F := F)) (srv' : service (F := F)) :
  let '(r, w) := drive srv self start in
  let '(r', w') := drive srv' self start in
  (r = r' /\ reported w = reported w')
  /\ forall k coords e,
      nth_error (reports (trace w)) k = Some (coords, Failure e) ->
      In (Print (MsgUpdateError (exc_str e))) (trace w)
      /\ (outcome self k coords = Ret tt ->
          (S k < length ROUTE_COORDINATES)%nat ->
          exists next a,
            nth_error ROUTE_COORDINATES (S k) = Some next
            /\ nth_error (reports (trace w)) (S k) = Some (next, a)).
Proof.
  destruct (drive_run srv self start) as [w [Hrun [Hrep [_ Hrec]]]].
  rewrite Hrun. clear Hrun.
  unfold reported at 2 in Hrep. cbn [start trace log rev reports map app]
    in Hrep.
  assert (Hw : recorded (log w))
    by (apply Hrec; intros c e Hin; contradiction).
  clear Hrec.
  destruct (drive_run srv' self start) as [w' [Hrun' [Hrep' _]]].
  rewrite Hrun'. clear Hrun'.
  unfold reported at 2 in Hrep'. cbn [start trace log rev reports map app]
    in Hrep'.
  split; [split; [reflexivity|congruence]|].
  intros k coords e Hk. split.
  - unfold trace in *. rewrite <- in_rev. apply (Hw coords).
    rewrite in_rev, <- reports_rev. eapply nth_error_In. exact Hk.
  - intros Hok Hlen.
    assert (Hpos : nth_error (snd (plan self 0 ROUTE_COORDINATES)) k
                   = Some coords).
    { rewrite <- Hrep. unfold reported.
      rewrite nth_error_map, Hk. reflexivity. }
    destruct (walk_plan_next ROUTE_COORDINATES BIN_COORDINATES
                             COORDINATE_TOLERANCE self ROUTE_COORDINATES
                             0 k coords Hpos) as [_ Hnext].
    specialize (Hnext Hok).
    destruct (nth_error ROUTE_COORDINATES (S k)) as [next|] eqn:Hroute.
    2:{ apply nth_error_None in Hroute. lia. }
    rewrite <- Hrep in Hnext. unfold reported in Hnext.
    rewrite nth_error_map in Hnext.
    destruct (nth_error (reports (trace w)) (S k)) as [[next' a]|];
      [|discriminate].
    injection Hnext as ->. exists next, a. split; reflexivity.
Qed.

(** C8. In a run in which no point of the route is in the tolerance
    region of a stop (and the sleep between two points, [1.0 / speed],
    is defined), the walker reports its position once for each point of
    the route: [len(ROUTE_COORDINATES)] reports, the points in order. *)
Theorem one_report_per_point (self : DriverSimulator (F := F)) (t : F) :
  (forall coords stop,
      In coords ROUTE_COORDINATES -> In stop BIN_COORDINATES ->
      ~ covers COORDINATE_TOLERANCE stop coords) ->
  fdiv fone (speed self) = Ret t ->
  sleep_exn t = None ->
  exists w,
    drive srv self start = (Ret tt, w)
    /\ length (reports (trace w)) = length ROUTE_COORDINATES
    /\ reported w = ROUTE_COORDINATES.
Proof.
  intros Hclear Hdiv Hsleep.
  destruct (drive_run srv self start) as [w [Hrun [Hrep _]]].
  assert (Hplan : plan self 0 ROUTE_COORDINATES = (Ret tt, ROUTE_COORDINATES)).
  { apply (walk_plan_clear ROUTE_COORDINATES BIN_COORDINATES
                           COORDINATE_TOLERANCE self t); [|assumption..].
    intros coords Hin. apply match_bin_none_intro. intros stop Hs.
    apply Hclear; assumption. }
  rewrite Hplan in Hrun, Hrep. cbn [fst snd] in Hrun, Hrep.
  exists w. split; [exact Hrun|].
  assert (Hall : reported w = ROUTE_COORDINATES) by exact Hrep.
  split; [|exact Hall].
  transitivity (length (reported w)); [|rewrite Hall; reflexivity].
  unfold reported. rewrite length_map. reflexivity.
Qed.

End WalkerClaims.

(** ** The program on binary64 floats: examples *)

Module Binary64Examples.

Import Binary64.

Local Open Scope float_scope.

(** The example of the specification. *)
Example densify_example :
  evenly_space_coordinates [(0, 0); (0, 2)] 1
  = Ret [(0, 0); (0, 1); (0, 2)].
Proof. vm_compute. reflexivity. Qed.

(** A segment shorter than twice the spacing factor is left whole. *)
Example densify_sparse :
  evenly_space_coordinates [(0, 0); (0, 1.5)] 1 = Ret [(0, 0); (0, 1.5)].
Proof. vm_compute. reflexivity. Qed.

(** A repeated waypoint comes out twice. *)
Example densify_repeated :
  evenly_space_coordinates [(0, 0); (0, 0); (0, 2)] 1
  = Ret [(0, 0); (0, 0); (0, 1); (0, 2)].
Proof. vm_compute. reflexivity. Qed.

(** Interior points are rounded to 6 places, vertices are not. *)
Example densify_rounds_interior_only :
  evenly_space_coordinates [(0.1234567, 0); (0, 1.00000004)] 0.4
  = Ret [(0.1234567, 0); (0.061728, 0.5); (0, 1.00000004)]
  /\ round 0.1234567 6 = 0.123457
  /\ round 1.00000004 6 = 1.
Proof. vm_compute. repeat split; reflexivity. Qed.

(** A spacing factor of 0 raises on a route of two points. *)
Example densify_zero_spacing :
  evenly_space_coordinates [(0, 0); (0, 2)] 0 = Raise ZeroDivisionError.
Proof. vm_compute. reflexivity. Qed.

(** The route of the module has 63 points. *)
Example route_coordinates_defined :
  exists route, ROUTE_COORDINATES = Ret route /\ length route = 63%nat.
Proof. eexists. split; vm_compute; reflexivity. Qed.

Lemma short_route_unchanged_witness :
  (length [(1.5, 2.5)%float] < 2)%nat
  /\ evenly_space_coordinates [(1.5, 2.5)] 0 = Ret [(1.5, 2.5)].
Proof.
  split; [simpl; lia|].
  apply (short_route_unchanged [(1.5, 2.5)] 0). simpl. lia.
Defined.

Lemma vertices_pass_through_witness :
  route_defined [(0.1234567, 0); (0, 1.00000004)] 0.4
  /\ exists out,
      evenly_space_coordinates [(0.1234567, 0); (0, 1.00000004)] 0.4
      = Ret out
      /\ Subseq [(0.1234567, 0); (0, 1.00000004)] out
      /\ (forall v, In v [(0.1234567, 0); (0, 1.00000004)] -> In v out).
Proof.
  assert (Hdef : route_defined [(0.1234567, 0); (0, 1.00000004)] 0.4).
  { simpl. split; [|exact I]. eexists. vm_compute. reflexivity. }
  split; [exact Hdef|].
  apply (vertices_pass_through [(0.1234567, 0); (0, 1.00000004)] 0.4 Hdef).
Defined.

(** *** The matcher *)

(** The examples of the specification: no match outside every square,
    and on the densified example route the stop [(0, 1)] with tolerance
    [0.5] matches at index 1 only. *)
Example match_outside :
  match_bin 0.0005 (0.01, 0.01) [(0, 0)] 0 = None.
Proof. vm_compute. reflexivity. Qed.

Example match_on_example_route :
  map (fun coords => match_bin 0.5 coords [(0, 1)] 0)
      [(0, 0); (0, 1); (0, 2)]
  = [None; Some 0%nat; None].
Proof. vm_compute. reflexivity. Qed.

Lemma match_returns_first_covering_stop_witness :
  covers 0.5 (0, 1) (0, 1.25) /\ covers 0.5 (0, 1.5) (0, 1.25)
  /\ match_bin 0.5 (0, 1.25) [(0, 1); (0, 1.5)] 0 = Some 0%nat.
Proof.
  assert (HA : covers 0.5 (0, 1) (0, 1.25))
    by (split; vm_compute; reflexivity).
  assert (HB : covers 0.5 (0, 1.5) (0, 1.25))
    by (split; vm_compute; reflexivity).
  split; [exact HA|]. split; [exact HB|].
  exact (proj2 (match_returns_first_covering_stop 0.5 (0, 1.25) [])
               (0, 1) (0, 1.5) HA HB).
Defined.

(** *** The walker *)

Lemma one_report_per_point_witness :
  (forall coords stop,
      In coords [(0, 0); (0, 1); (0, 2)] -> In stop [(5, 5)] ->
      ~ covers 0.0005 stop coords)
  /\ fdiv fone (speed (simulator 0.4)) = Ret 2.5
  /\ sleep_exn 2.5 = None
  /\ exists w,
      drive_route [(0, 0); (0, 1); (0, 2)] [(5, 5)] 0.0005 BINS_TO_RESET
                  failing (simulator 0.4) start
      = (Ret tt, w)
      /\ length (reports (trace w)) = length [(0, 0); (0, 1); (0, 2)]
      /\ reported w = [(0, 0); (0, 1); (0, 2)].
Proof.
  assert (Hclear : forall coords stop,
             In coords [(0, 0); (0, 1); (0, 2)] -> In stop [(5, 5)] ->
             ~ covers 0.0005 stop coords).
  { intros coords stop Hc Hs [Hlon _]. simpl in Hc, Hs.
    destruct Hs as [<-|[]].
    destruct Hc as [<-|[<-|[<-|[]]]]; vm_compute in Hlon; discriminate. }
  assert (Hdiv : fdiv fone (speed (simulator 0.4)) = Ret 2.5)
    by (vm_compute; reflexivity).
  assert (Hsleep : sleep_exn 2.5 = None) by (vm_compute; reflexivity).
  split; [exact Hclear|]. split; [exact Hdiv|]. split; [exact Hsleep|].
  exact (one_report_per_point [(0, 0); (0, 1); (0, 2)] [(5, 5)] 0.0005
                              BINS_TO_RESET failing (simulator 0.4) 2.5
                              Hclear Hdiv Hsleep).
Defined.

(** With speed 0 the constructor raises nothing and the walk stops on
    [ZeroDivisionError] after its first report; with a negative speed it
    stops on the [ValueError] of [time.sleep]. *)
Example zero_speed_walk :
  fst (__init__ "http://localhost:5000" (Some "token"%string) 0 5 start)
  = Ret (simulator 0)
  /\ (let (r, w) := drive_route [(0, 0); (0, 1); (0, 2)] [] 0.0005 []
                                failing (simulator 0) start in
      r = Raise ZeroDivisionError /\ reported w = [(0, 0)])
  /\ (let (r, w) := drive_route [(0, 0); (0, 1); (0, 2)] [] 0.0005 []
                                failing (simulator (-1)) start in
      r = Raise ValueError /\ reported w = [(0, 0)]).
Proof. vm_compute. repeat split; reflexivity. Qed.

(** Every report fails and the walk goes to its end. *)
Example failing_reports_walk :
  let (r, w) := drive_route [(0, 0); (0, 1); (0, 2)] [(0, 1)] 0.5 []
                            failing (simulator 0.4) start in
  r = Ret tt
  /\ reported w = [(0, 0); (0, 1); (0, 2)]
  /\ step_sleeps (trace w) = [2.5; 2.5]
  /\ nth_error (trace w) 4
     = Some (Request (PostLocation 0 0)
                     (Failure {| exc_str := "503 Server Error";
                                 exc_response := None |}))
  /\ nth_error (trace w) 5 = Some (Print (MsgUpdateError "503 Server Error")).
Proof. vm_compute. repeat split; reflexivity. Qed.

End Binary64Examples.

(** ** More on the densifier, for every arithmetic *)

Section DensifierMore.

Context {F : Type} `{PyFloat F}.

Implicit Types (a b : coord (F := F)) (rest : list (coord (F := F))).

Lemma length_intermediates a b (n : Z) :
  length (intermediates a b n) = Z.to_nat (n - 1).
Proof. unfold intermediates. rewrite length_map. apply length_range. Qed.

Lemma num_points_pos a b s (n : Z) :
  num_points a b s = Ret n -> (1 <= n)%Z.
Proof.
  unfold num_points. intros Hn.
  apply rbind_ret_inv in Hn. destruct Hn as [d [_ Hn]].
  apply rbind_ret_inv in Hn. destruct Hn as [q [_ Hn]].
  apply rbind_ret_inv in Hn. destruct Hn as [k [_ Hn]].
  injection Hn as <-. lia.
Qed.

Lemma chain_counts a rest s tl :
  chain a rest s = Ret tl ->
  exists ns,
    segment_counts a rest s = Ret ns
    /\ length ns = length rest
    /\ Forall (fun n => (1 <= n)%Z) ns
    /\ Z.of_nat (length tl) = fold_right Z.add 0%Z ns.
Proof.
  revert a tl. induction rest as [|b rest IH]; intros a tl Hc.
  - injection Hc as <-. exists []. repeat split; constructor.
  - simpl in Hc.
    destruct (num_points a b s) as [n|e] eqn:Hn; [|discriminate].
    cbn [rbind] in Hc.
    destruct (chain b rest s) as [tl'|e] eqn:Htl; [|discriminate].
    injection Hc as <-.
    destruct (IH b tl' Htl) as [ns [Hns [Hlen [Hpos Hsum]]]].
    pose proof (num_points_pos a b s n Hn) as Hn1.
    exists (n :: ns). cbn [segment_counts]. rewrite Hn, Hns.
    split; [reflexivity|]. split; [simpl; lia|].
    split; [constructor; assumption|].
    rewrite length_app, length_intermediates. cbn [length fold_right].
    lia.
Qed.

Lemma sum_at_least_length (ns : list Z) :
  Forall (fun n => (1 <= n)%Z) ns ->
  (Z.of_nat (length ns) <= fold_right Z.add 0 ns)%Z.
Proof.
  induction 1 as [|n ns Hn _ IH]; [simpl; lia|].
  cbn [length fold_right]. lia.
Qed.

(** X1. The densified route has one point for the start of the route
    and, for each segment, as many points as the segment has pieces:
    its length is 1 plus the sum of the values of [num_points], so it
    is never shorter than the route. *)
Theorem densified_length (a b : coord (F := F))
        (rest : list (coord (F := F))) (spacing_factor : F) :
  route_defined (a :: b :: rest) spacing_factor ->
  exists out ns,
    evenly_space_coordinates (a :: b :: rest) spacing_factor = Ret out
    /\ segment_counts a (b :: rest) spacing_factor = Ret ns
    /\ length ns = length (b :: rest)
    /\ Z.of_nat (length out) = (1 + fold_right Z.add 0 ns)%Z
    /\ (length (a :: b :: rest) <= length out)%nat.
Proof.
  intros Hdef.
  destruct (chain_defined a (b :: rest) spacing_factor Hdef) as [tl Htl].
  destruct (chain_counts a (b :: rest) spacing_factor tl Htl)
    as [ns [Hns [Hlen [Hpos Hsum]]]].
  exists (a :: tl), ns.
  rewrite evenly_space_coordinates_chain, Htl.
  split; [reflexivity|]. split; [exact Hns|]. split; [exact Hlen|].
  pose proof (sum_at_least_length ns Hpos) as Hle.
  cbn [length] in *. split; lia.
Qed.

Lemma chain_app a b (l rest : list (coord (F := F))) s :
  chain a (l ++ b :: rest) s
  = (t1 <- chain a (l ++ [b]) s ;;
     t2 <- chain b rest s ;;
     Ret (t1 ++ t2)).
Proof.
  revert a. induction l as [|c l IH]; intros a.
  - cbn [app chain].
    destruct (num_points a b s) as [n|e]; cbn [rbind]; [|reflexivity].
    destruct (chain b rest s) as [t2|e]; cbn [rbind]; [|reflexivity].
    rewrite <- app_assoc. reflexivity.
  - cbn [app chain].
    destruct (num_points a c s) as [n|e]; cbn [rbind]; [|reflexivity].
    rewrite IH.
    destruct (chain c (l ++ [b]) s) as [t1|e]; cbn [rbind]; [|reflexivity].
    destruct (chain b rest s) as [t2|e]; cbn [rbind]; [|reflexivity].
    rewrite <- app_assoc. reflexivity.
Qed.

(** X2. A route can be densified in two parts that share a vertex:
    the densified route is the densified first part followed by the
    densified second part without its first point, and an error of
    either part is the error of the whole, the first part first. *)
Theorem densify_in_two_parts (before after : list (coord (F := F)))
        (b : coord (F := F)) (spacing_factor : F) :
  evenly_space_coordinates (before ++ b :: after) spacing_factor
  = (o1 <- evenly_space_coordinates (before ++ [b]) spacing_factor ;;
     o2 <- evenly_space_coordinates (b :: after) spacing_factor ;;
     Ret (o1 ++ tl o2)).
Proof.
  destruct before as [|a before]; destruct after as [|c after].
  - reflexivity.
  - cbn [app]. rewrite evenly_space_coordinates_chain.
    change (evenly_space_coordinates [b] spacing_factor) with (Ret [b]).
    cbn [rbind].
    destruct (chain b (c :: after) spacing_factor); reflexivity.
  - change (evenly_space_coordinates [b] spacing_factor) with (Ret [b]).
    destruct (evenly_space_coordinates ((a :: before) ++ [b])
                                       spacing_factor) as [o1|e];
      cbn [rbind tl]; [rewrite app_nil_r|]; reflexivity.
  - pose proof (chain_app a b before (c :: after) spacing_factor) as Hc.
    destruct before as [|y before]; cbn [app] in Hc |- *;
      rewrite !evenly_space_coordinates_chain, Hc.
    + destruct (chain a [b] spacing_factor) as [t1|e];
        cbn [rbind]; [|reflexivity].
      destruct (chain b (c :: after) spacing_factor) as [t2|e];
        cbn [rbind tl]; reflexivity.
    + destruct (chain a (y :: before ++ [b]) spacing_factor) as [t1|e];
        cbn [rbind]; [|reflexivity].
      destruct (chain b (c :: after) spacing_factor) as [t2|e];
        cbn [rbind tl]; reflexivity.
Qed.

End DensifierMore.

(** ** The densifier against the specification *)

Section DensifierEnds.

Context {F : Type} `{PyFloat F}.

Implicit Types (a b : coord (F := F)) (rest : list (coord (F := F))).

(** [evenly_space_coordinates] on a route that is not empty: its first
    point, then the chain. *)
Lemma evenly_space_coordinates_cons a rest s :
  evenly_space_coordinates (a :: rest) s
  = (tl <- chain a rest s ;; Ret (a :: tl)).
Proof.
  destruct rest as [|b rest]; [reflexivity|].
  apply evenly_space_coordinates_chain.
Qed.

(** A chain ends with the last point of its route. *)
Lemma chain_snoc a b (l : list (coord (F := F))) s t :
  chain a (l ++ [b]) s = Ret t -> exists o, t = o ++ [b].
Proof.
  intros Ht.
  assert (Hne : t <> []).
  { destruct l; eapply chain_nonempty; exact Ht. }
  pose proof (chain_last a (l ++ [b]) s t b Ht) as Hlast.
  rewrite last_last in Hlast.
  exists (removelast t).
  rewrite <- Hlast by (destruct l; discriminate).
  apply app_removelast_last. exact Hne.
Qed.

(** C7. For a route of 2 points or more, whenever the function returns
    the densified route begins with the first point of the route and
    ends with its last point; and it returns whenever the piece count
    of every segment is defined, that is, when no division, square,
    square root or [int] of the run raises. *)
Theorem densified_route_keeps_ends (route : list (coord (F := F)))
        (s : F) :
  (2 <= length route)%nat ->
  (forall out,
      evenly_space_coordinates route s = Ret out ->
      exists first final,
        nth_error route 0 = Some first
        /\ nth_error route (length route - 1) = Some final
        /\ nth_error out 0 = Some first
        /\ nth_error out (length out - 1) = Some final)
  /\ (route_defined route s ->
      exists out, evenly_space_coordinates route s = Ret out).
Proof.
  intros Hlen. split.
  - intros out Hout.
    destruct route as [|a [|b rest]]; [simpl in Hlen; lia ..|].
    destruct (evenly_space_coordinates_ends (a :: b :: rest) s out a Hout)
      as [Hhd Hlast].
    exists a, (last (a :: b :: rest) a).
    split; [reflexivity|].
    split; [apply nth_error_last; discriminate|].
    destruct out as [|p out]; [discriminate|].
    cbn [hd_error] in Hhd. injection Hhd as ->.
    split; [reflexivity|].
    rewrite (nth_error_last (a :: out) a) by discriminate.
    f_equal. exact Hlast.
  - intros Hdef.
    destruct (evenly_space_coordinates_defined route s Hdef) as [out Hout].
    exists out. exact Hout.
Qed.

End DensifierEnds.

Section DensifierSpecification.

Context {F : Type} `{PyFloatLaws F}.

Implicit Types (A B : coord (F := F)) (rest : list (coord (F := F))).

(** Line 45 against the specification: with a spacing factor above
    zero, [int] of the quotient is its floor. *)
Lemma num_points_pieces A B (s : F) :
  flt fzero s = true -> num_points A B s = pieces A B s.
Proof.
  intros Hs. unfold num_points, pieces, distance, euclid.
  destruct (fpow2 (fsub (fst B) (fst A))) as [dx2|e]; [|reflexivity].
  destruct (fpow2 (fsub (snd B) (snd A))) as [dy2|e]; [|reflexivity].
  cbn [rbind].
  destruct (fsqrt (fadd dx2 dy2)) as [d|e] eqn:Hd; [|reflexivity].
  cbn [rbind].
  destruct (fdiv d s) as [q|e] eqn:Hq; [|reflexivity].
  cbn [rbind].
  rewrite (ffloor_quotient (fadd dx2 dy2) s d q Hs Hd Hq). reflexivity.
Qed.

(** Lines 48-52 against the specification: the inner loop appends the
    interior points. *)
Lemma intermediates_interior A B (n : Z) :
  intermediates A B n = interior A B n.
Proof.
  unfold intermediates, interior, range.
  replace (Z.to_nat (n - 1)) with (Z.to_nat n - 1)%nat by lia.
  rewrite <- seq_shift, !map_map.
  apply map_ext. intros k. unfold intermediate, interpolant.
  replace (1 + Z.of_nat k)%Z with (Z.of_nat (S k)) by lia.
  reflexivity.
Qed.

Lemma nth_error_interior A B (n j : Z) :
  (1 <= j < n)%Z ->
  nth_error (interior A B n) (Z.to_nat (j - 1))
  = Some (interpolant A B n j).
Proof.
  intros Hj. unfold interior.
  rewrite nth_error_map.
  rewrite (nth_error_nth' _ 0%nat) by (rewrite length_seq; lia).
  rewrite seq_nth by lia. cbn [option_map]. do 2 f_equal. lia.
Qed.

Lemma chain_densify_from A rest (s : F) :
  flt fzero s = true -> chain A rest s = densify_from A rest s.
Proof.
  intros Hs. revert A. induction rest as [|B rest IH]; intros A.
  - reflexivity.
  - cbn [chain densify_from].
    rewrite num_points_pieces by exact Hs.
    destruct (pieces A B s) as [n|e]; cbn [rbind]; [|reflexivity].
    rewrite IH, intermediates_interior. reflexivity.
Qed.

(** C2. For a route of 2 points or more and a spacing factor above
    zero, the function computes the densified route of the
    specification, errors included: for each consecutive pair [(A, B)],
    with [d] their Euclidean distance and [n = max(1, floor(d / s))],
    it emits [n - 1] interior points, the [j]-th being the interpolant
    of [A] and [B] at ratio [j / n] with both coordinates rounded to 6
    decimal places, and then [B].  The numbers are floats: distance,
    quotient and interpolant are the rounded ones. *)
Theorem densifier_follows_specification (route : list (coord (F := F)))
        (s : F) :
  (2 <= length route)%nat -> flt fzero s = true ->
  evenly_space_coordinates route s = densify route s
  /\ (forall A B, num_points A B s = pieces A B s)
  /\ (forall A B n,
        length (intermediates A B n) = Z.to_nat (n - 1)
        /\ forall j, (1 <= j < n)%Z ->
                     nth_error (intermediates A B n) (Z.to_nat (j - 1))
                     = Some (interpolant A B n j)).
Proof.
  intros Hlen Hs. split; [|split].
  - destruct route as [|A rest]; [simpl in Hlen; lia|].
    rewrite evenly_space_coordinates_cons. unfold densify.
    rewrite chain_densify_from by exact Hs. reflexivity.
  - intros A B. apply num_points_pieces. exact Hs.
  - intros A B n. split; [apply length_intermediates|].
    intros j Hj. rewrite intermediates_interior.
    apply nth_error_interior. exact Hj.
Qed.

(** *** Adjacent identical waypoints *)

(** A segment from a finite point to itself is one piece: its length
    is [0.0] and so is the quotient. *)
Lemma num_points_same A (s : F) :
  ffinite (fst A) = true -> ffinite (snd A) = true ->
  flt fzero s = true ->
  num_points A A s = Ret 1%Z.
Proof.
  intros Hx Hy Hs. unfold num_points, distance.
  rewrite (fsub_self (fst A) Hx), (fsub_self (snd A) Hy).
  rewrite fpow2_zero. cbn [rbind].
  rewrite fadd_zero, fsqrt_zero. cbn [rbind].
  rewrite (fdiv_zero s Hs). cbn [rbind].
  rewrite fint_zero. reflexivity.
Qed.

(** C3, as amended.  Where the route has two adjacent identical
    waypoints, finite ones, and the spacing factor is above zero, the
    function puts no interpolated point between them but emits both:
    whenever it returns, the point is twice in a row in the output,
    between what the route before and the route after it give on their
    own. *)
Theorem zero_length_segment_emits_both_ends
        (before after : list (coord (F := F))) (A : coord (F := F))
        (s : F) :
  ffinite (fst A) = true -> ffinite (snd A) = true ->
  flt fzero s = true ->
  route_defined (before ++ A :: A :: after) s ->
  num_points A A s = Ret 1%Z
  /\ intermediates A A 1 = []
  /\ exists o1 o2,
      evenly_space_coordinates (before ++ A :: A :: after) s
      = Ret (o1 ++ A :: A :: o2)
      /\ evenly_space_coordinates (before ++ [A]) s = Ret (o1 ++ [A])
      /\ evenly_space_coordinates (A :: after) s = Ret (A :: o2).
Proof.
  intros Hx Hy Hs Hdef.
  pose proof (num_points_same A s Hx Hy Hs) as Hone.
  split; [exact Hone|]. split; [reflexivity|].
  assert (Hafter : forall t, chain A (A :: after) s = Ret t ->
                             exists o2, chain A after s = Ret o2
                                        /\ t = A :: o2).
  { intros t Ht. cbn [chain] in Ht. rewrite Hone in Ht. cbn [rbind] in Ht.
    destruct (chain A after s) as [o2|e]; [|discriminate].
    injection Ht as <-. exists o2. split; reflexivity. }
  destruct before as [|X l].
  - cbn [app] in *.
    destruct (chain_defined A (A :: after) s Hdef) as [t Ht].
    destruct (Hafter t Ht) as [o2 [Ho2 ->]].
    exists [], o2.
    rewrite !evenly_space_coordinates_cons, Ht, Ho2.
    repeat split; reflexivity.
  - cbn [app] in *.
    assert (Hdef' : segments_defined X (l ++ A :: A :: after) s).
    { destruct l; exact Hdef. }
    destruct (chain_defined X (l ++ A :: A :: after) s Hdef') as [t Ht].
    rewrite chain_app in Ht.
    apply rbind_ret_inv in Ht. destruct Ht as [t1 [Ht1 Ht]].
    apply rbind_ret_inv in Ht. destruct Ht as [t2 [Ht2 Ht]].
    destruct (Hafter t2 Ht2) as [o2 [Ho2 ->]].
    destruct (chain_snoc X A l s t1 Ht1) as [o Ho]. subst t1.
    exists (X :: o), o2.
    rewrite !evenly_space_coordinates_cons.
    rewrite chain_app, Ht1, Ht2, Ho2. cbn [rbind app].
    rewrite <- app_assoc. repeat split; reflexivity.
Qed.

(** *** The spacing *)









End DensifierSpecification.

(** ** Spacing factors that cut nothing *)

Section DensifierSpacing.

Context {F : Type} `{PyFloatLaws F}.

Implicit Types (a b : coord (F := F)) (rest : list (coord (F := F))).

(** X3. With a spacing factor of [0.0] the function never returns on a
    route of 2 points or more: it raises on the first segment,
    [ZeroDivisionError] unless the distance of that segment raises
    before the division. *)
Theorem zero_spacing_raises a b rest :
  exists e,
    evenly_space_coordinates (a :: b :: rest) fzero = Raise e
    /\ (distance a b = Raise e
        \/ (exists d, distance a b = Ret d) /\ e = ZeroDivisionError).
Proof.
  rewrite evenly_space_coordinates_chain. cbn [chain].
  unfold num_points.
  destruct (distance a b) as [d|e] eqn:Hd; cbn [rbind].
  - rewrite fdiv_by_zero. cbn [rbind].
    exists ZeroDivisionError. split; [reflexivity|].
    right. split; [exists d|]; reflexivity.
  - exists e. split; [reflexivity|]. left. reflexivity.
Qed.

(** A route whose segments are all one piece comes back unchanged. *)
Lemma chain_whole a rest (s : F) :
  adjacent_all (fun A B => num_points A B s = Ret 1%Z) (a :: rest) ->
  chain a rest s = Ret rest.
Proof.
  revert a. induction rest as [|b rest IH]; intros a Hall; [reflexivity|].
  destruct Hall as [Hab Hall]. cbn [chain].
  rewrite Hab. cbn [rbind]. rewrite (IH b Hall). reflexivity.
Qed.

Lemma evenly_space_coordinates_whole (route : list (coord (F := F)))
      (s : F) :
  adjacent_all (fun A B => num_points A B s = Ret 1%Z) route ->
  evenly_space_coordinates route s = Ret route.
Proof.
  intros Hall. destruct route as [|a rest]; [reflexivity|].
  rewrite evenly_space_coordinates_cons, (chain_whole a rest s Hall).
  reflexivity.
Qed.

(** The square root behind a distance. *)
Lemma distance_sqrt a b (d : F) :
  distance a b = Ret d -> exists x, fsqrt x = Ret d.
Proof.
  unfold distance. intros Hd.
  apply rbind_ret_inv in Hd. destruct Hd as [dx2 [_ Hd]].
  apply rbind_ret_inv in Hd. destruct Hd as [dy2 [_ Hd]].
  exists (fadd dx2 dy2). exact Hd.
Qed.

(** X4. With a spacing factor below zero nothing is interpolated: when
    the function returns, it returns the route unchanged. *)
Theorem negative_spacing_keeps_route (route : list (coord (F := F)))
        (s : F) :
  flt s fzero = true -> route_defined route s ->
  evenly_space_coordinates route s = Ret route.
Proof.
  intros Hs Hdef. apply evenly_space_coordinates_whole.
  destruct route as [|a rest]; [exact I|].
  cbn [route_defined] in Hdef. revert a Hdef.
  induction rest as [|b rest IH]; intros a Hdef; [exact I|].
  destruct Hdef as [[n Hn] Hdef].
  split; [|apply IH; exact Hdef].
  rewrite Hn. unfold num_points in Hn.
  apply rbind_ret_inv in Hn. destruct Hn as [d [Hd Hn]].
  apply rbind_ret_inv in Hn. destruct Hn as [q [Hq Hn]].
  apply rbind_ret_inv in Hn. destruct Hn as [k [Hk Hn]].
  injection Hn as <-.
  destruct (distance_sqrt a b d Hd) as [x Hx].
  pose proof (fint_quotient_negative x s d q k Hs Hx Hq Hk) as Hle.
  f_equal. lia.
Qed.

(** X5. When the quotient [d / s] of every segment of the route is
    below 2, no point is added: when the function returns, it returns
    the route unchanged. *)
Theorem coarse_spacing_keeps_route (route : list (coord (F := F)))
        (s : F) :
  route_defined route s ->
  adjacent_all (fun A B => exists d q,
                    distance A B = Ret d /\ fdiv d s = Ret q
                    /\ flt q (fadd fone fone) = true) route ->
  evenly_space_coordinates route s = Ret route.
Proof.
  intros Hdef Hall. apply evenly_space_coordinates_whole.
  destruct route as [|a rest]; [exact I|].
  cbn [route_defined] in Hdef. revert a Hdef Hall.
  induction rest as [|b rest IH]; intros a Hdef Hall; [exact I|].
  destruct Hdef as [[n Hn] Hdef].
  destruct Hall as [[d [q [Hd [Hq Hlt]]]] Hall].
  split; [|apply IH; assumption].
  rewrite Hn. unfold num_points in Hn.
  rewrite Hd in Hn. cbn [rbind] in Hn. rewrite Hq in Hn. cbn [rbind] in Hn.
  apply rbind_ret_inv in Hn. destruct Hn as [k [Hk Hn]].
  injection Hn as <-.
  pose proof (fint_below_two q k Hlt Hk) as Hle.
  f_equal. lia.
Qed.

End DensifierSpacing.

(** ** The arithmetic of binary64

    The facts of [PyFloatLaws], from the specification of the IEEE
    operations. *)

Module Binary64Laws.

Import Binary64 Binary64Math.

Local Open Scope float_scope.

Lemma Prim2SF_zero : Prim2SF 0 = S754_zero false.
Proof. reflexivity. Qed.

Lemma Prim2SF_infinity : Prim2SF infinity = S754_infinity false.
Proof. reflexivity. Qed.

Lemma Prim2SF_two :
  Prim2SF (1 + 1) = S754_finite false 4503599627370496 (-51).
Proof. reflexivity. Qed.

Lemma ltb_zero_above (s : float) :
  (0 <? s) = true -> above_zero (Prim2SF s).
Proof.
  rewrite ltb_spec, Prim2SF_zero. unfold SFltb, SFcompare.
  destruct (Prim2SF s) as [[]|[]| |[] m e]; simpl; try discriminate; auto.
Qed.

Lemma is_finite_cases (x : float) :
  is_finite x = true ->
  match Prim2SF x with
  | S754_zero _ | S754_finite _ _ _ => True
  | _ => False
  end.
Proof.
  unfold is_finite, is_nan, is_infinity.
  rewrite !FloatAxioms.eqb_spec, abs_spec, Prim2SF_infinity.
  destruct (Prim2SF x) as [s|s| |s m e]; simpl; auto; try discriminate.
  destruct s; discriminate.
Qed.

(** Rounding keeps the sign. *)
Lemma round_sign (sx : bool) (mx ex : Z) (lx : location) :
  match binary_round_aux prec emax sx mx ex lx with
  | S754_finite s _ _ | S754_infinity s | S754_zero s => s = sx
  | S754_nan => True
  end.
Proof.
  unfold binary_round_aux.
  destruct (shr_fexp prec emax mx ex lx) as [mrs' e'].
  destruct (shr_fexp prec emax _ e' loc_Exact) as [mrs'' e''].
  destruct (shr_m mrs''); [reflexivity| |exact I].
  destruct (Z.leb e'' (emax - prec)); reflexivity.
Qed.

Lemma sqrt_not_negative (x : spec_float) :
  not_negative (SFsqrt prec emax x).
Proof.
  destruct x as [s|[]| |[] m e]; simpl; auto.
  destruct (SFsqrt_core_binary prec emax (Z.pos m) e) as [[mz ez] lz].
  pose proof (round_sign false mz ez lz) as Hs.
  destruct (binary_round_aux prec emax false mz ez lz) as [s|s| |s m' e'];
    subst; simpl; auto.
Qed.

Lemma div_sign (x y : spec_float) :
  not_negative x -> above_zero y ->
  match SFdiv prec emax x y with
  | S754_finite true _ _ => False
  | _ => True
  end.
Proof.
  intros Hx Hy.
  destruct x as [sx|[]| |[] mx ex]; destruct y as [sy|[]| |[] my ey];
    simpl in *; try contradiction; auto.
  destruct (SFdiv_core_binary prec emax (Z.pos mx) ex (Z.pos my) ey)
    as [[mz ez] lz].
  pose proof (round_sign false mz ez lz) as Hs.
  destruct (binary_round_aux prec emax false mz ez lz) as [s|s| |s m' e'];
    subst; auto.
Qed.

Lemma sub_self (x : float) : is_finite x = true -> x - x = 0.
Proof.
  intros Hx. apply is_finite_cases in Hx.
  apply Prim2SF_inj. rewrite sub_spec, Prim2SF_zero.
  destruct (Prim2SF x) as [[]|s| |s m e]; try contradiction;
    try reflexivity.
  unfold SF64sub, SFsub. rewrite Z.sub_diag. reflexivity.
Qed.

Lemma div_zero (s : float) : (0 <? s) = true -> div 0 s = Ret 0.
Proof.
  intros Hs. pose proof (ltb_zero_above s Hs) as Hpos.
  unfold div.
  assert (Hne : (s =? 0) = false).
  { rewrite FloatAxioms.eqb_spec, Prim2SF_zero.
    destruct (Prim2SF s) as [[]|[]| |[] m e]; try contradiction;
      reflexivity. }
  rewrite Hne. f_equal. apply Prim2SF_inj.
  rewrite div_spec, Prim2SF_zero.
  destruct (Prim2SF s) as [[]|[]| |[] m e]; try contradiction; reflexivity.
Qed.

Lemma abs_below (d t : float) : (abs d <? t) = true -> (0 <? t) = true.
Proof.
  rewrite !ltb_spec, abs_spec, Prim2SF_zero.
  destruct (Prim2SF d) as [sd|sd| |sd md ed];
    destruct (Prim2SF t) as [[]|[]| |[] mt et]; simpl;
    try discriminate; auto.
Qed.

Lemma floor_quotient (x s d q : float) :
  (0 <? s) = true -> sqrt x = Ret d -> div d s = Ret q ->
  floor q = to_int q.
Proof.
  intros Hs Hd Hq. unfold sqrt in Hd. unfold div in Hq.
  destruct (x <? 0); [discriminate|]. injection Hd as <-.
  destruct (s =? 0); [discriminate|]. injection Hq as <-.
  pose proof (sqrt_not_negative (Prim2SF x)) as Hsq.
  change (SFsqrt prec emax (Prim2SF x)) with (SF64sqrt (Prim2SF x)) in Hsq.
  rewrite <- sqrt_spec in Hsq.
  pose proof (div_sign (Prim2SF (PrimFloat.sqrt x)) (Prim2SF s) Hsq
                       (ltb_zero_above s Hs)) as Hdiv.
  change (SFdiv prec emax) with SF64div in Hdiv.
  rewrite <- div_spec in Hdiv.
  unfold floor, to_int.
  destruct (Prim2SF (PrimFloat.sqrt x / s)) as [sq|sq| |[] m e];
    try reflexivity.
  contradiction.
Qed.

Lemma int_quotient_negative (x s d q : float) (k : Z) :
  (s <? 0) = true -> sqrt x = Ret d -> div d s = Ret q ->
  to_int q = Ret k -> (k <= 0)%Z.
Proof.
  intros Hs Hd Hq Hk. unfold sqrt in Hd. unfold div in Hq.
  destruct (x <? 0); [discriminate|]. injection Hd as <-.
  destruct (s =? 0); [discriminate|]. injection Hq as <-.
  pose proof (sqrt_not_negative (Prim2SF x)) as Hsq.
  change (SFsqrt prec emax (Prim2SF x)) with (SF64sqrt (Prim2SF x)) in Hsq.
  rewrite <- sqrt_spec in Hsq.
  rewrite ltb_spec, Prim2SF_zero in Hs.
  unfold to_int in Hk. rewrite div_spec in Hk.
  destruct (Prim2SF (PrimFloat.sqrt x)) as [sd|[]| |[] md ed];
    try contradiction;
    destruct (Prim2SF s) as [[]|[]| |[] ms es]; try discriminate;
    simpl in Hk; try (injection Hk as <-; lia); try discriminate.
  destruct (SFdiv_core_binary prec emax (Z.pos md) ed (Z.pos ms) es)
    as [[mz ez] lz].
  pose proof (round_sign true mz ez lz) as Hsg.
  destruct (binary_round_aux prec emax true mz ez lz) as [sq|sq| |sq m' e'];
    try discriminate; try (injection Hk as <-; lia).
  subst sq. injection Hk as <-.
  assert (Hnn : (0 <= Z.shiftl (Z.pos m') e')%Z)
    by (apply Z.shiftl_nonneg; apply Pos2Z.is_nonneg).
  lia.
Qed.

Lemma digits2_pos_bound (m : positive) :
  (Z.pos m < 2 ^ Z.pos (digits2_pos m))%Z.
Proof.
  induction m as [m IH|m IH|]; cbn [digits2_pos].
  - rewrite Pos2Z.inj_succ, Z.pow_succ_r by lia. lia.
  - rewrite Pos2Z.inj_succ, Z.pow_succ_r by lia. lia.
  - reflexivity.
Qed.

(** The mantissa of a float has at most 53 bits. *)
Lemma mantissa_bound (x : float) (s : bool) (m : positive) (e : Z) :
  Prim2SF x = S754_finite s m e -> (Z.pos m < 2 ^ 53)%Z.
Proof.
  intros Hx. pose proof (Prim2SF_valid x) as Hv. rewrite Hx in Hv.
  unfold SpecFloat.valid_binary, bounded, canonical_mantissa, fexp in Hv.
  apply andb_prop in Hv. destruct Hv as [Hc _].
  apply Z.eqb_eq in Hc.
  pose proof (digits2_pos_bound m) as Hd.
  assert (Hle : (Z.pos (digits2_pos m) <= 53)%Z).
  { unfold prec, SpecFloat.emin, emax in Hc.
    remember (Z.pos (digits2_pos m)) as dg. clear Heqdg Hd. lia. }
  eapply Z.lt_le_trans; [exact Hd|].
  apply Z.pow_le_mono_r; [lia|exact Hle].
Qed.

Lemma shiftl_below (m : positive) (e b : Z) :
  (0 <= b)%Z -> (e <= - b)%Z -> (Z.pos m < 2 * 2 ^ b)%Z ->
  (Z.shiftl (Z.pos m) e <= 1)%Z.
Proof.
  intros Hb He Hm.
  rewrite <- (Z.shiftr_opp_r (Z.pos m) e).
  rewrite Z.shiftr_div_pow2 by lia.
  assert (Hpow : (2 ^ b <= 2 ^ (- e))%Z) by (apply Z.pow_le_mono_r; lia).
  assert (Hlt : (Z.pos m / 2 ^ (- e) < 2)%Z).
  { apply Z.div_lt_upper_bound; [lia|].
    remember (2 ^ b)%Z as pb. remember (2 ^ (- e))%Z as pe. lia. }
  lia.
Qed.

Lemma int_below_two (q : float) (k : Z) :
  (q <? 1 + 1) = true -> to_int q = Ret k -> (k <= 1)%Z.
Proof.
  intros Hlt Hk.
  rewrite ltb_spec, Prim2SF_two in Hlt.
  remember 4503599627370496%positive as c eqn:Hc0.
  unfold to_int in Hk.
  destruct (Prim2SF q) as [s|s| |s m e] eqn:Hq; try discriminate.
  - injection Hk as <-. lia.
  - pose proof (mantissa_bound q s m e Hq) as Hm.
    injection Hk as <-.
    assert (Hnn : (0 <= Z.shiftl (Z.pos m) e)%Z)
      by (apply Z.shiftl_nonneg; apply Pos2Z.is_nonneg).
    remember (Z.shiftl (Z.pos m) e) as v eqn:Hv.
    destruct s; cbv beta zeta iota.
    + clear Hm Hlt Hc0. lia.
    + unfold SFltb, SFcompare in Hlt.
      destruct (Z.compare e (-51)) eqn:He.
      * apply Z.compare_eq in He.
        destruct (Pos.compare_cont Eq m c) eqn:Hc; try discriminate.
        change (Pos.compare m c = Lt) in Hc.
        apply Pos.compare_lt_iff in Hc.
        rewrite Hv.
        apply (shiftl_below m e 51);
          [discriminate|rewrite He; discriminate|].
        replace (2 * 2 ^ 51)%Z with (Z.pos c) by (rewrite Hc0; reflexivity).
        apply Pos2Z.pos_lt_pos. exact Hc.
      * rewrite Z.compare_lt_iff in He.
        rewrite Hv. apply (shiftl_below m e 52); [discriminate| |].
        -- clear Hm Hnn Hc0 Hv. lia.
        -- change (2 * 2 ^ 52)%Z with (2 ^ 53)%Z. exact Hm.
      * discriminate.
Qed.

#[export] Instance binary64_laws : PyFloatLaws float := {
  fzero := 0;
  ffinite := is_finite;
  ffloor := floor;
  fsub_self := sub_self;
  fpow2_zero := eq_refl;
  fadd_zero := eq_refl;
  fsqrt_zero := eq_refl;
  fdiv_zero := div_zero;
  fdiv_by_zero := fun _ => eq_refl;
  fint_zero := eq_refl;
  fabs_zero := eq_refl;
  fabs_below := abs_below;
  ffloor_quotient := floor_quotient;
  fint_quotient_negative := int_quotient_negative;
  fint_below_two := int_below_two
}.

End Binary64Laws.

(** ** More on the walker, for every arithmetic *)

Section WalkerMore.

Context {F : Type} `{PyFloat F}.

Variable ROUTE_COORDINATES : list (coord (F := F)).
Variable BIN_COORDINATES : list (coord (F := F)).
Variable COORDINATE_TOLERANCE : F.
Variable BINS_TO_RESET : list (string * Z).
Variable srv : service (F := F).

Local Abbreviation search := (match_bin COORDINATE_TOLERANCE).
Local Abbreviation outcome :=
  (step_outcome ROUTE_COORDINATES BIN_COORDINATES COORDINATE_TOLERANCE).
Local Abbreviation plan :=
  (walk_plan ROUTE_COORDINATES BIN_COORDINATES COORDINATE_TOLERANCE).
Local Abbreviation step :=
  (drive_step ROUTE_COORDINATES BIN_COORDINATES COORDINATE_TOLERANCE).
Local Abbreviation drive :=
  (drive_route ROUTE_COORDINATES BIN_COORDINATES COORDINATE_TOLERANCE
               BINS_TO_RESET).

(** *** Readings and the order of a log *)

Lemma pauses_app (l1 l2 : list (event (F := F))) :
  pauses (l1 ++ l2) = pauses l1 ++ pauses l2.
Proof.
  induction l1 as [|e l1 IH]; [reflexivity|].
  destruct e as [r a|[z|t]|m]; simpl; rewrite IH; reflexivity.
Qed.

Lemma pauses_rev (l : list (event (F := F))) :
  pauses (rev l) = rev (pauses l).
Proof.
  induction l as [|e l IH]; [reflexivity|].
  simpl rev. rewrite pauses_app, IH.
  destruct e as [r a|[z|t]|m]; simpl; rewrite ?app_nil_r; reflexivity.
Qed.



Lemma bin_requests_app (l1 l2 : list (event (F := F))) :
  bin_requests (l1 ++ l2) = bin_requests l1 ++ bin_requests l2.
Proof.
  induction l1 as [|e l1 IH]; [reflexivity|].
  destruct e as [[b f|b f|lon lat] a|t|m]; simpl; rewrite IH; reflexivity.
Qed.

Lemma bin_requests_rev (l : list (event (F := F))) :
  bin_requests (rev l) = rev (bin_requests l).
Proof.
  induction l as [|e l IH]; [reflexivity|].
  simpl rev. rewrite bin_requests_app, IH.
  destruct e as [[b f|b f|lon lat] a|t|m]; simpl;
    rewrite ?app_nil_r; reflexivity.
Qed.

Lemma bin_requests_In (l : list (event (F := F))) r a :
  In (r, a) (bin_requests l) -> In (Request r a) l.
Proof.
  induction l as [|e l IH]; [contradiction|].
  destruct e as [[b f|b f|lon lat] a'|t|m]; simpl; intros Hin;
    try (right; apply IH; exact Hin).
  - destruct Hin as [Heq|Hin]; [left; congruence|right; apply IH; exact Hin].
  - destruct Hin as [Heq|Hin]; [left; congruence|right; apply IH; exact Hin].
Qed.

(** *** Resetting the fill levels *)

Ltac run_cases :=
  repeat (cbv beta iota delta
              [bind print emit lift time_sleep raise ret rbind send];
          cbn [sent log];
          match goal with
          | |- context [match ?x with _ => _ end] =>
              lazymatch x with
              | context [match _ with _ => _ end] => fail
              | _ => destruct x eqn:?
              end
          end).

Lemma reset_bin_requests entry (w : world (F := F)) :
  exists w' block,
    reset_bin srv entry w = (Ret tt, w')
    /\ bin_requests (log w') = rev block ++ bin_requests (log w)
    /\ (forall bins rs, reset_shape bins rs ->
                        reset_shape (entry :: bins) (block ++ rs))
    /\ pauses (log w') = pauses (log w)
    /\ arrivals (log w') = arrivals (log w).
Proof.
  destruct entry as [bin_id fill_level]. unfold reset_bin.
  run_cases.
  - eexists. exists [(PutFillLevel bin_id fill_level, Reply body)].
    split; [reflexivity|]. split; [reflexivity|].
    split; [|split; reflexivity].
    intros bins rs Hrs. cbn [app reset_shape]. auto.
  - eexists.
    exists [(PutFillLevel bin_id fill_level, Failure e);
            (PostDirectUpdate bin_id fill_level, Reply body)].
    split; [reflexivity|]. split; [reflexivity|].
    split; [|split; reflexivity].
    intros bins rs Hrs. cbn [app reset_shape]. auto.
  - eexists.
    exists [(PutFillLevel bin_id fill_level, Failure e);
            (PostDirectUpdate bin_id fill_level, Failure e0)].
    split; [reflexivity|]. split; [reflexivity|].
    split; [|split; reflexivity].
    intros bins rs Hrs. cbn [app reset_shape]. auto.
  - eexists.
    exists [(PutFillLevel bin_id fill_level, Failure e);
            (PostDirectUpdate bin_id fill_level, Reply body)].
    split; [reflexivity|]. split; [reflexivity|].
    split; [|split; reflexivity].
    intros bins rs Hrs. cbn [app reset_shape]. auto.
  - eexists.
    exists [(PutFillLevel bin_id fill_level, Failure e);
            (PostDirectUpdate bin_id fill_level, Failure e0)].
    split; [reflexivity|]. split; [reflexivity|].
    split; [|split; reflexivity].
    intros bins rs Hrs. cbn [app reset_shape]. auto.
Qed.

Lemma reset_bin_fill_levels_log (w : world (F := F)) :
  exists w' rs,
    reset_bin_fill_levels BINS_TO_RESET srv w = (Ret tt, w')
    /\ bin_requests (log w') = rev rs ++ bin_requests (log w)
    /\ reset_shape BINS_TO_RESET rs
    /\ reports (log w') = reports (log w)
    /\ step_sleeps (log w') = step_sleeps (log w)
    /\ pauses (log w') = pauses (log w)
    /\ arrivals (log w') = arrivals (log w).
Proof.
  assert (Hloop : forall l i (w1 : world (F := F)),
             exists w' rs,
               for_each (fun _ entry => reset_bin srv entry) i l w1
               = (Ret tt, w')
               /\ bin_requests (log w') = rev rs ++ bin_requests (log w1)
               /\ reset_shape l rs
               /\ reports (log w') = reports (log w1)
               /\ step_sleeps (log w') = step_sleeps (log w1)
               /\ pauses (log w') = pauses (log w1)
               /\ arrivals (log w') = arrivals (log w1)).
  { induction l as [|entry l IH]; intros i w1.
    - exists w1, []. repeat split; reflexivity.
    - destruct (reset_bin_requests entry w1)
        as [w2 [block [Hrun [Hreq [Hshape [Hp Ha]]]]]].
      destruct (reset_bin_run srv entry w1) as [w2' [Hrun' [Hrep [Hsl _]]]].
      rewrite Hrun in Hrun'. injection Hrun' as <-.
      destruct (IH (S i) w2)
        as [w' [rs [Hrun' [Hreq' [Hshape' [Hrep' [Hsl' [Hp' Ha']]]]]]]].
      exists w', (block ++ rs). cbn [for_each]. unfold bind. rewrite Hrun.
      split; [exact Hrun'|]. split.
      + rewrite Hreq', Hreq, rev_app_distr, <- app_assoc. reflexivity.
      + split; [apply Hshape; exact Hshape'|]. repeat split; congruence. }
  unfold reset_bin_fill_levels. unfold bind at 1, print, emit.
  destruct (Hloop BINS_TO_RESET 0%nat
                  {| sent := sent w;
                     log := Print (MsgResetting (length BINS_TO_RESET))
                            :: log w |})
    as [w' [rs [Hrun [Hreq [Hshape [Hrep [Hsl [Hp Ha]]]]]]]].
  exists w', rs. split; [exact Hrun|].
  split; [exact Hreq|]. split; [exact Hshape|].
  repeat split; assumption.
Qed.

(** X8. Resetting the fill levels raises nothing, whatever the service
    replies.  It sends, for each bin of [BINS_TO_RESET] in order, one
    PUT of its fill level and, after a PUT that failed and only then,
    one POST to the other end point for the same bin; it reports no
    position and never sleeps, neither on an int nor on a float. *)
Theorem reset_requests_each_bin (w : world (F := F)) :
  exists w' rs,
    reset_bin_fill_levels BINS_TO_RESET srv w = (Ret tt, w')
    /\ bin_requests (trace w') = bin_requests (trace w) ++ rs
    /\ reset_shape BINS_TO_RESET rs
    /\ reports (trace w') = reports (trace w)
    /\ pauses (trace w') = pauses (trace w)
    /\ step_sleeps (trace w') = step_sleeps (trace w).
Proof.
  destruct (reset_bin_fill_levels_log w)
    as [w' [rs [Hrun [Hreq [Hshape [Hrep [Hsl [Hp _]]]]]]]].
  exists w', rs. split; [exact Hrun|].
  unfold trace.
  rewrite !bin_requests_rev, !reports_rev, !pauses_rev, !step_sleeps_rev.
  rewrite Hreq, Hrep, Hp, Hsl. rewrite rev_app_distr, rev_involutive.
  repeat split; [exact Hshape].
Qed.

(** *** A walk with a valid speed and a valid pause *)

Ltac absurd_case :=
  exfalso;
  first
    [ congruence
    | match goal with
      | Hs : match_bin _ _ _ _ = Some ?i, Hn : nth_error _ ?i = None |- _ =>
          apply match_bin_in_range in Hs; apply nth_error_None in Hn;
          simpl in Hs; lia
      end ].










(** *** Where a walk stops *)

Lemma walk_plan_prefix self l :
  forall i,
  exists rest,
    l = snd (plan self i l) ++ rest
    /\ (fst (plan self i l) = Ret tt -> rest = [])
    /\ (forall e, fst (plan self i l) = Raise e ->
                  snd (plan self i l) <> []).
Proof.
  induction l as [|coords l IH]; intros i.
  - exists []. cbn [walk_plan fst snd]. repeat split; [discriminate].
  - cbn [walk_plan]. destruct (outcome self i coords) as [[]|e].
    + destruct (IH (S i)) as [rest [Hl [Hret Hraise]]].
      destruct (plan self (S i) l) as [r ps]. cbn [fst snd] in *.
      exists rest. split; [simpl; congruence|].
      split; [exact Hret|]. intros e _. discriminate.
    + exists l. cbn [fst snd]. split; [reflexivity|].
      split; [discriminate|]. intros e' _. discriminate.
Qed.

(** X11. Whatever the speed, the pause and the replies of the service,
    the positions the walker reports are the first points of the route,
    in order, none left out and none twice.  They are all the points of
    the route when the walk ends without an error, and when it ends on
    an error at least one position has been reported before: nothing
    raises before the first report. *)
Theorem reports_are_a_prefix_of_the_route (self : DriverSimulator (F := F)) :
  let '(r, w) := drive srv self start in
  exists rest,
    ROUTE_COORDINATES = reported w ++ rest
    /\ (r = Ret tt -> rest = [])
    /\ (forall e, r = Raise e -> reported w <> []).
Proof.
  destruct (drive_route_run ROUTE_COORDINATES BIN_COORDINATES
                            COORDINATE_TOLERANCE BINS_TO_RESET srv self
                            start) as [w [Hrun [Hrep _]]].
  rewrite Hrun.
  change (reported start) with (@nil (coord (F := F))) in Hrep.
  cbn [app] in Hrep. rewrite Hrep.
  apply walk_plan_prefix.
Qed.

(** The last turn of the loop does not sleep between points. *)
Lemma drive_step_last self i coords (w : world (F := F)) :
  (Z.of_nat i <? Z.of_nat (length ROUTE_COORDINATES) - 1)%Z = false ->
  int_sleep_exn (pause_time self) = None ->
  exists w',
    step srv self i coords w = (Ret tt, w')
    /\ step_sleeps (log w') = step_sleeps (log w).
Proof.
  intros Hlast Hpause. destruct coords as [longitude latitude].
  unfold drive_step.
  unfold bind at 1. unfold print at 1, emit at 1.
  unfold bind at 1. rewrite update_location_run. cbn [sent log].
  unfold getitem. rewrite Hlast.
  destruct (srv (sent w) (PostLocation longitude latitude)) as [body|e].
  - run_cases; try absurd_case; eexists; split; reflexivity.
  - cbn [dict_get String.eqb Ascii.eqb Bool.eqb].
    run_cases; try absurd_case; eexists; split; reflexivity.
Qed.

(** X12. A route of at most one point is walked without a sleep
    between points, so [1.0 / speed] is never computed: with a valid
    pause the walk ends without an error whatever the speed, also 0. *)
Theorem short_route_needs_no_speed (self : DriverSimulator (F := F)) :
  (length ROUTE_COORDINATES <= 1)%nat ->
  int_sleep_exn (pause_time self) = None ->
  exists w,
    drive srv self start = (Ret tt, w)
    /\ reported w = ROUTE_COORDINATES
    /\ step_sleeps (trace w) = [].
Proof.
  intros Hlen Hpause.
  destruct (reset_bin_fill_levels_log start)
    as [w1 [rs [Hreset [_ [_ [Hrep1 [Hsl1 _]]]]]]].
  set (w2 := {| sent := sent w1;
                log := Print (MsgSpeed (speed self) (pause_time self))
                       :: Print (MsgStarting (length ROUTE_COORDINATES)
                                             (length BIN_COORDINATES))
                       :: log w1 |}).
  assert (Hany : forall l i (w : world (F := F)),
             exists w3,
               for_each (step srv self) i l w = (Ret tt, w3)
               /\ map fst (reports (log w3))
                  = rev l ++ map fst (reports (log w))
               /\ step_sleeps (log w3) = step_sleeps (log w)).
  { induction l as [|coords l IH]; intros i w.
    - exists w. repeat split; reflexivity.
    - assert (Hlast : (Z.of_nat i <?
                       Z.of_nat (length ROUTE_COORDINATES) - 1)%Z = false)
        by (apply Z.ltb_ge; lia).
      destruct (drive_step_last self i coords w Hlast Hpause)
        as [w3 [Hrun Hsl]].
      destruct (drive_step_run ROUTE_COORDINATES BIN_COORDINATES
                               COORDINATE_TOLERANCE srv self i coords w)
        as [w3' [Hrun' [_ [Hrep _]]]].
      rewrite Hrun in Hrun'. injection Hrun' as _ <-.
      destruct (IH (S i) w3) as [w4 [Hrun4 [Hrep4 Hsl4]]].
      exists w4. cbn [for_each]. unfold bind. rewrite Hrun.
      split; [exact Hrun4|]. split; [|congruence].
      rewrite Hrep4, Hrep. cbn [map fst rev].
      rewrite <- app_assoc. reflexivity. }
  assert (Hloop : exists w3,
             for_each (step srv self) 0 ROUTE_COORDINATES w2 = (Ret tt, w3)
             /\ map fst (reports (log w3)) = rev ROUTE_COORDINATES
             /\ step_sleeps (log w3) = []).
  { destruct (Hany ROUTE_COORDINATES 0%nat w2) as [w3 [Hrun [Hrep Hsl]]].
    exists w3. split; [exact Hrun|].
    rewrite Hrep, Hsl. unfold w2. cbn [log reports step_sleeps].
    rewrite Hrep1, Hsl1. cbn [start log reports step_sleeps map].
    rewrite app_nil_r. split; reflexivity. }
  destruct Hloop as [w3 [Hloop [Hrep3 Hsl3]]].
  exists {| sent := sent w3; log := Print MsgCompleted :: log w3 |}.
  split.
  { unfold drive_route. unfold bind at 1. rewrite Hreset.
    unfold bind at 1, print at 1, emit at 1.
    unfold bind at 1, print at 1, emit at 1.
    unfold bind at 1. cbn [sent log]. fold w2. rewrite Hloop.
    reflexivity. }
  split.
  - rewrite reported_log. cbn [log reports]. rewrite Hrep3.
    apply rev_involutive.
  - unfold trace. rewrite step_sleeps_rev. cbn [log step_sleeps].
    rewrite Hsl3. reflexivity.
Qed.

End WalkerMore.

(** ** The matcher and the speed of the walk *)

Section MatcherLaws.

Context {F : Type} `{PyFloatLaws F}.

(** X13. With a tolerance that is not above zero no stop is ever near:
    the search finds nothing, whatever the position and the stops. *)
Theorem no_match_without_tolerance (tolerance : F)
        (position : coord (F := F)) (stops : list (coord (F := F))) :
  flt fzero tolerance = false ->
  match_bin tolerance position stops 0 = None.
Proof.
  intros Htol. apply match_bin_none_intro. intros stop _ [Hlon _].
  apply fabs_below in Hlon. rewrite Hlon in Htol. discriminate.
Qed.

(** X14. With a tolerance above zero a finite position that is one of
    the stops is matched: the search returns a stop that covers it,
    that stop or one before it in the list. *)
Theorem stop_at_position_matches (tolerance : F)
        (position : coord (F := F)) (stops : list (coord (F := F)))
        (k : nat) :
  ffinite (fst position) = true -> ffinite (snd position) = true ->
  flt fzero tolerance = true ->
  nth_error stops k = Some position ->
  exists idx stop,
    match_bin tolerance position stops 0 = Some idx
    /\ (idx <= k)%nat
    /\ nth_error stops idx = Some stop
    /\ covers tolerance stop position.
Proof.
  intros Hx Hy Htol Hk.
  assert (Hself : _is_near_waypoint tolerance position position = true).
  { unfold _is_near_waypoint.
    rewrite (fsub_self _ Hx), (fsub_self _ Hy), fabs_zero, Htol.
    reflexivity. }
  destruct (match_bin tolerance position stops 0) as [idx|] eqn:Hs.
  - pose proof (match_bin_some tolerance position stops 0 idx Hs)
      as [_ [[stop [Hnth Hnear]] Hbefore]].
    rewrite Nat.sub_0_r in *.
    exists idx, stop. split; [reflexivity|].
    split; [|split; [exact Hnth|apply near_covers; exact Hnear]].
    destruct (Nat.le_gt_cases idx k) as [Hle|Hgt]; [exact Hle|].
    rewrite (Hbefore k position Hgt Hk) in Hself. discriminate.
  - rewrite (match_bin_none tolerance position stops 0 Hs position)
      in Hself; [discriminate|].
    eapply nth_error_In. exact Hk.
Qed.

End MatcherLaws.

Section WalkerSpeed.

Context {F : Type} `{PyFloat F}.


(** X15. When [1.0 / speed] raises, as it does for speed 0, or is a
    length [time.sleep] refuses, the walk of a route of 2 points or
    more stops on that error right after its first report (the pause at
    the first point apart). *)
Theorem failed_interval_stops_after_first_report
        (first second : coord (F := F))
        (rest stops : list (coord (F := F)))
        (arrivalTolerance : F) (bins : list (string * Z))
        (srv : service (F := F)) (self : DriverSimulator (F := F))
        (e : exn) :
  fdiv fone (speed self) = Raise e
  \/ (exists t, fdiv fone (speed self) = Ret t /\ sleep_exn t = Some e) ->
  match_bin arrivalTolerance first stops 0 = None
  \/ int_sleep_exn (pause_time self) = None ->
  exists w,
    drive_route (first :: second :: rest) stops arrivalTolerance bins srv
                self start
    = (Raise e, w)
    /\ reported w = [first].
Proof.
  intros Hspeed Hfirst.
  destruct (drive_route_run (first :: second :: rest) stops arrivalTolerance
                            bins srv self start) as [w [Hrun [Hrep _]]].
  assert (Htail : (sleep_time <- fdiv fone (speed self) ;;
                   match sleep_exn sleep_time with
                   | Some e => Raise e
                   | None => Ret tt
                   end)%res = @Raise unit e).
  { destruct Hspeed as [Hd|[t [Hd Hs]]]; rewrite Hd; cbn [rbind];
      [reflexivity|]. rewrite Hs. reflexivity. }
  assert (Hstep : step_outcome (first :: second :: rest) stops
                               arrivalTolerance self 0 first = Raise e).
  { unfold step_outcome.
    replace (Z.of_nat 0 <?
             Z.of_nat (length (first :: second :: rest)) - 1)%Z with true
      by (symmetry; apply Z.ltb_lt; cbn [length]; lia).
    destruct (match_bin arrivalTolerance first stops 0) as [idx|] eqn:Hs.
    - destruct Hfirst as [Hnone|Hpause]; [discriminate|].
      pose proof (match_bin_in_range _ _ _ _ _ Hs) as Hidx.
      unfold getitem.
      destruct (nth_error stops idx) eqn:Hnth.
      + cbn [rbind]. rewrite Hpause. cbn [rbind]. exact Htail.
      + apply nth_error_None in Hnth. lia.
    - cbn [rbind]. exact Htail. }
  cbn [walk_plan] in Hrun, Hrep. rewrite Hstep in Hrun, Hrep.
  exists w. split; [exact Hrun|exact Hrep].
Qed.

End WalkerSpeed.

(** ** [main] and [login], for every arithmetic *)

Section MainFacts.

Context {F : Type} `{PyFloat F}.

Variable ROUTE_COORDINATES : list (coord (F := F)).
Variable BIN_COORDINATES : list (coord (F := F)).
Variable COORDINATE_TOLERANCE : F.
Variable BINS_TO_RESET : list (string * Z).
Variable auth : login_service.
Variable srv : service (F := F).

Local Abbreviation step :=
  (drive_step ROUTE_COORDINATES BIN_COORDINATES COORDINATE_TOLERANCE).
Local Abbreviation drive :=
  (drive_route ROUTE_COORDINATES BIN_COORDINATES COORDINATE_TOLERANCE
               BINS_TO_RESET).
Local Abbreviation run_main :=
  (main ROUTE_COORDINATES BIN_COORDINATES COORDINATE_TOLERANCE
        BINS_TO_RESET auth srv).
Local Abbreviation run_sim :=
  (run_simulator ROUTE_COORDINATES BIN_COORDINATES COORDINATE_TOLERANCE
                 BINS_TO_RESET srv).

Ltac main_cases :=
  repeat (cbv beta iota delta
              [bind print emit lift time_sleep raise ret rbind send];
          cbn [sent log];
          match goal with
          | |- context [match ?x with _ => _ end] =>
              lazymatch x with
              | context [match _ with _ => _ end] => fail
              | _ => destruct x eqn:?
              end
          end).

Ltac keeps_log :=
  let ev := fresh "ev" in
  let Hev := fresh "Hev" in
  intros ev Hev; cbn [log]; repeat (first [exact Hev | right]).

(** *** The log only grows *)

Lemma drive_step_keeps self i coords (w : world (F := F)) :
  exists r w',
    step srv self i coords w = (r, w')
    /\ forall ev, In ev (log w) -> In ev (log w').
Proof.
  destruct coords as [longitude latitude].
  unfold drive_step, update_location, getitem.
  main_cases; eexists; eexists; (split; [reflexivity|keeps_log]).
Qed.

Lemma for_each_step_keeps self l :
  forall i (w : world (F := F)),
  exists r w',
    for_each (step srv self) i l w = (r, w')
    /\ forall ev, In ev (log w) -> In ev (log w').
Proof.
  induction l as [|coords l IH]; intros i w.
  - exists (Ret tt), w. split; [reflexivity|auto].
  - destruct (drive_step_keeps self i coords w) as [r [w1 [Hrun Hk]]].
    cbn [for_each]. unfold bind. rewrite Hrun. destruct r as [[]|e].
    + destruct (IH (S i) w1) as [r' [w' [Hrun' Hk']]].
      exists r', w'. split; [exact Hrun'|auto].
    + exists (Raise e), w1. split; [reflexivity|exact Hk].
Qed.

Lemma reset_shape_puts (bins : list (string * Z))
      (rs : list (request (F := F) * reply)) :
  reset_shape bins rs ->
  forall bin_id fill_level,
    In (bin_id, fill_level) bins ->
    exists a, In (PutFillLevel bin_id fill_level, a) rs.
Proof.
  revert rs. induction bins as [|[b f] bins IH]; intros rs Hshape b0 f0 Hin.
  - contradiction.
  - cbn [reset_shape] in Hshape.
    destruct rs as [|[[b1 f1|b1 f1|lon lat] [body|e]] rs]; try contradiction.
    + destruct Hshape as [-> [-> Hshape]].
      destruct Hin as [Heq|Hin].
      * injection Heq as <- <-. exists (Reply body). left. reflexivity.
      * destruct (IH rs Hshape b0 f0 Hin) as [a Ha].
        exists a. right. exact Ha.
    + destruct rs as [|[[b2 f2|b2 f2|lon lat] a2] rs]; try contradiction.
      destruct Hshape as [-> [-> [-> [-> Hshape]]]].
      destruct Hin as [Heq|Hin].
      * injection Heq as <- <-. exists (Failure e). left. reflexivity.
      * destruct (IH rs Hshape b0 f0 Hin) as [a Ha].
        exists a. right. right. exact Ha.
Qed.

(** Every walk begins with the reset: a PUT for each bin is in its
    log. *)
Lemma drive_route_puts self (w0 : world (F := F)) :
  exists r w,
    drive srv self w0 = (r, w)
    /\ forall bin_id fill_level,
        In (bin_id, fill_level) BINS_TO_RESET ->
        exists a, In (Request (PutFillLevel bin_id fill_level) a) (log w).
Proof.
  destruct (reset_bin_fill_levels_log BINS_TO_RESET srv w0)
    as [w1 [rs [Hreset [Hreq [Hshape _]]]]].
  set (w2 := {| sent := sent w1;
                log := Print (MsgSpeed (speed self) (pause_time self))
                       :: Print (MsgStarting (length ROUTE_COORDINATES)
                                             (length BIN_COORDINATES))
                       :: log w1 |}).
  destruct (for_each_step_keeps self ROUTE_COORDINATES 0%nat w2)
    as [r [w3 [Hloop Hkeep]]].
  assert (Hput : forall bin_id fill_level,
             In (bin_id, fill_level) BINS_TO_RESET ->
             exists a,
               In (Request (PutFillLevel bin_id fill_level) a) (log w3)).
  { intros bin_id fill_level Hin.
    destruct (reset_shape_puts BINS_TO_RESET rs Hshape bin_id fill_level Hin)
      as [a Ha].
    exists a. apply Hkeep. unfold w2. cbn [log]. right. right.
    apply bin_requests_In. rewrite Hreq.
    apply in_or_app. left. apply -> in_rev. exact Ha. }
  assert (Hrun : drive srv self w0
                 = match r with
                   | Ret _ =>
                       (Ret tt, {| sent := sent w3;
                                   log := Print MsgCompleted :: log w3 |})
                   | Raise e => (Raise e, w3)
                   end).
  { unfold drive_route. unfold bind at 1. rewrite Hreset.
    unfold bind at 1, print at 1, emit at 1.
    unfold bind at 1, print at 1, emit at 1.
    unfold bind at 1. cbn [sent log]. fold w2. rewrite Hloop.
    destruct r; reflexivity. }
  rewrite Hrun. destruct r as [[]|e].
  - eexists. eexists. split; [reflexivity|].
    intros bin_id fill_level Hin.
    destruct (Hput bin_id fill_level Hin) as [a Ha].
    exists a. right. exact Ha.
  - exists (Raise e), w3. split; [reflexivity|exact Hput].
Qed.

(** The simulator [main] makes and drives, and what the run leaves in
    the history. *)
Lemma run_simulator_run (args : Args (F := F)) (tok : option string)
      (s : session (F := F)) :
  exists self w0 r w,
    __init__ (args_url args) tok (args_speed args) (args_pause args)
             {| sent := requests s; log := [] |}
    = (Ret self, w0)
    /\ speed self = args_speed args
    /\ pause_time self = args_pause args
    /\ token self = tok
    /\ drive srv self w0 = (r, w)
    /\ run_sim args tok s
       = (r, {| requests := sent w;
                history := map Walk (log w) ++ history s |}).
Proof.
  destruct (init_run (args_url args) tok (args_speed args) (args_pause args)
                     {| sent := requests s; log := [] |})
    as [self [w0 [Hinit [Hspeed Hpause]]]].
  assert (Htok : token self = tok).
  { revert Hinit. unfold __init__, bind, print, emit, ret.
    destruct (negb (has_token tok)); intros Hinit;
      injection Hinit as <- _; reflexivity. }
  destruct (drive srv self w0) as [r w] eqn:Hdrive.
  exists self, w0, r, w.
  split; [exact Hinit|]. split; [exact Hspeed|]. split; [exact Hpause|].
  split; [exact Htok|]. split; [exact Hdrive|].
  unfold run_simulator, lift_walk. unfold bind at 1.
  rewrite Hinit, Hdrive. reflexivity.
Qed.

Lemma walk_events_app (l1 l2 : list (main_event (F := F))) :
  walk_events (l1 ++ l2) = walk_events l1 ++ walk_events l2.
Proof.
  induction l1 as [|e l1 IH]; [reflexivity|].
  destruct e; simpl; rewrite IH; reflexivity.
Qed.

Lemma walk_events_walk (l : list (event (F := F))) :
  walk_events (map Walk l) = l.
Proof. induction l as [|e l IH]; [reflexivity|]. simpl. rewrite IH. reflexivity. Qed.

Lemma login_requests_app (l1 l2 : list (main_event (F := F))) :
  login_requests (l1 ++ l2) = login_requests l1 ++ login_requests l2.
Proof.
  induction l1 as [|e l1 IH]; [reflexivity|].
  destruct e; simpl; rewrite IH; reflexivity.
Qed.

Lemma login_requests_walk (l : list (event (F := F))) :
  login_requests (map Walk l) = [].
Proof. induction l as [|e l IH]; [reflexivity|]. exact IH. Qed.

(** X16. With a token on the command line [main] does not log in: no
    log-in request is sent.  It makes a simulator that holds the token,
    the speed and the pause of the arguments as they are and drives the
    route; the result of [main] is the result of that walk, an error
    included, and its events are the events of [main]. *)
Theorem token_skips_login (args : Args (F := F)) (s : session (F := F)) :
  has_token (args_token args) = true ->
  exists self w0 r w s',
    run_main args s = (r, s')
    /\ login_requests (history s') = login_requests (history s)
    /\ __init__ (args_url args) (args_token args) (args_speed args)
                (args_pause args) {| sent := requests s; log := [] |}
       = (Ret self, w0)
    /\ speed self = args_speed args
    /\ pause_time self = args_pause args
    /\ token self = args_token args
    /\ drive srv self w0 = (r, w)
    /\ walk_events (history s') = log w ++ walk_events (history s)
    /\ requests s' = sent w.
Proof.
  intros Htok.
  destruct (run_simulator_run args (args_token args) s)
    as [self [w0 [r [w [Hinit [Hspeed [Hpause [Htoken [Hdrive Hrun]]]]]]]]].
  exists self, w0, r, w.
  eexists. unfold main. rewrite Htok. split; [exact Hrun|].
  cbn [history requests].
  rewrite login_requests_app, login_requests_walk.
  rewrite walk_events_app, walk_events_walk.
  repeat split; assumption.
Qed.

(** X17. [--skip-reset] has no effect: also with the option set, a run
    of [main] that has a token resets the fill levels, a PUT for each
    bin of [BINS_TO_RESET] being among its requests. *)
Theorem skip_reset_is_ignored (args : Args (F := F))
        (s : session (F := F)) :
  has_token (args_token args) = true ->
  args_skip_reset args = true ->
  exists r s',
    run_main args s = (r, s')
    /\ forall bin_id fill_level,
        In (bin_id, fill_level) BINS_TO_RESET ->
        exists a,
          In (Walk (Request (PutFillLevel bin_id fill_level) a))
             (history s').
Proof.
  intros Htok _.
  destruct (run_simulator_run args (args_token args) s)
    as [self [w0 [r [w [_ [_ [_ [_ [Hdrive Hrun]]]]]]]]].
  destruct (drive_route_puts self w0) as [r' [w' [Hdrive' Hputs]]].
  rewrite Hdrive in Hdrive'. injection Hdrive' as <- <-.
  eexists. eexists. unfold main. rewrite Htok. split; [exact Hrun|].
  intros bin_id fill_level Hin.
  destruct (Hputs bin_id fill_level Hin) as [a Ha].
  exists a. cbn [history]. apply in_or_app. left.
  apply in_map. exact Ha.
Qed.

(** X18. Without a token on the command line, when the log-in gives
    none (the request fails, or the reply has no ["token"], or an empty
    one), [main] prints that the log-in failed and returns without an
    error: it sends the log-in request and nothing else, makes no
    simulator and the walker does nothing. *)
Theorem failed_login_ends_main (args : Args (F := F))
        (s : session (F := F)) :
  has_token (args_token args) = false ->
  token_of (auth (args_url args) (args_username args) (args_password args))
  = ""%string ->
  exists s',
    run_main args s = (Ret tt, s')
    /\ requests s' = S (requests s)
    /\ login_requests (history s')
       = (args_url args, args_username args, args_password args)
         :: login_requests (history s)
    /\ walk_events (history s') = walk_events (history s)
    /\ In (Say MsgLoginFailed) (history s').
Proof.
  intros Htok Hnone. unfold main. rewrite Htok.
  unfold mbind at 1, say at 1. unfold mbind at 1, login.
  cbn [requests history].
  unfold token_of in Hnone.
  destruct (auth (args_url args) (args_username args) (args_password args))
    as [data|e].
  - rewrite Hnone. cbn [has_token String.eqb negb]. unfold say.
    eexists. split; [reflexivity|]. cbn [requests history].
    cbn [login_requests walk_events In]. repeat split; auto.
  - cbn [has_token String.eqb negb]. unfold say.
    eexists. split; [reflexivity|]. cbn [requests history].
    destruct (exc_response e);
      cbn [app login_requests walk_events In]; repeat split; auto.
Qed.

(** X19. Without a token on the command line, when the log-in gives a
    token that is not empty, the simulator is made with that token and
    the url, the speed and the pause of the arguments, and drives the
    route: one log-in request is sent, before every request of the
    walker, and the result of [main] is the result of the walk. *)
Theorem login_token_reaches_simulator (args : Args (F := F))
        (s : session (F := F)) (t : string) :
  has_token (args_token args) = false ->
  token_of (auth (args_url args) (args_username args) (args_password args))
  = t ->
  has_token (Some t) = true ->
  exists self w0 r w s',
    run_main args s = (r, s')
    /\ login_requests (history s')
       = (args_url args, args_username args, args_password args)
         :: login_requests (history s)
    /\ __init__ (args_url args) (Some t) (args_speed args) (args_pause args)
                {| sent := S (requests s); log := [] |}
       = (Ret self, w0)
    /\ base_url self = args_url args
    /\ token self = Some t
    /\ drive srv self w0 = (r, w)
    /\ walk_events (history s') = log w ++ walk_events (history s)
    /\ requests s' = sent w
    /\ In (Say MsgLoginSuccessful) (history s').
Proof.
  intros Htok Ht Hsome. unfold main. rewrite Htok.
  unfold mbind at 1, say at 1. unfold mbind at 1, login.
  cbn [requests history].
  unfold token_of in Ht.
  destruct (auth (args_url args) (args_username args) (args_password args))
    as [data|e].
  - rewrite Ht, Hsome. cbn [negb]. unfold mbind, say.
    cbn [requests history].
    match goal with
    | |- context [run_simulator _ _ _ _ _ _ _ ?s1] =>
        destruct (run_simulator_run args (Some t) s1)
          as [self [w0 [r [w [Hinit [_ [_ [Htoken [Hdrive Hrun]]]]]]]]]
    end.
    cbn [requests history] in Hinit.
    assert (Hurl : base_url self = args_url args).
    { revert Hinit. unfold __init__, bind, print, emit, ret.
      destruct (negb (has_token (Some t))); intros Hinit;
        injection Hinit as <- _; reflexivity. }
    exists self, w0, r, w.
    eexists. split; [exact Hrun|].
    cbn [history requests].
    rewrite login_requests_app, login_requests_walk.
    rewrite walk_events_app, walk_events_walk.
    cbn [app login_requests walk_events].
    repeat split; try assumption.
    apply in_or_app. right. left. reflexivity.
  - subst t. discriminate Hsome.
Qed.

End MainFacts.

(** ** The further properties on binary64 floats: instances *)

Module Binary64More.

Import Binary64 Binary64Run.

Local Open Scope float_scope.

Lemma densified_length_witness :
  route_defined ((0, 0) :: uneven_tail) 1
  /\ exists out ns,
      evenly_space_coordinates ((0, 0) :: uneven_tail) 1 = Ret out
      /\ segment_counts (0, 0) uneven_tail 1 = Ret ns
      /\ length ns = length uneven_tail
      /\ Z.of_nat (length out) = (1 + fold_right Z.add 0 ns)%Z
      /\ (length ((0, 0)%float :: uneven_tail) <= length out)%nat.
Proof.
  assert (Hdef : route_defined ((0, 0) :: uneven_tail) 1).
  { simpl. repeat split; eexists; vm_compute; reflexivity. }
  split; [exact Hdef|].
  apply (densified_length (0, 0) (0, 2) [(0, 2.5)] 1 Hdef).
Defined.



(** On the densified example route the stop [(0, 1)] is reached once,
    at the second point. *)
Example bins_reached_example :
  bins_reached meridian meridian_stops 0.5 = [(1%nat, (0, 1))].
Proof. vm_compute. reflexivity. Qed.

Lemma short_route_needs_no_speed_witness :
  (length single_point <= 1)%nat
  /\ int_sleep_exn (pause_time (simulator 0)) = None
  /\ exists w,
      drive_route single_point meridian_stops 0.5 BINS_TO_RESET failing
                  (simulator 0) start
      = (Ret tt, w)
      /\ reported w = [(0, 0)]
      /\ step_sleeps (trace w) = [].
Proof.
  assert (Hpause : int_sleep_exn (pause_time (simulator 0)) = None)
    by (vm_compute; reflexivity).
  split; [simpl; lia|]. split; [exact Hpause|].
  apply (short_route_needs_no_speed single_point meridian_stops 0.5 BINS_TO_RESET
                                    failing (simulator 0));
    [simpl; lia|exact Hpause].
Defined.

Lemma token_skips_login_witness :
  has_token (args_token with_token) = true
  /\ exists self w0 r w (s' : session (F := float)),
      main meridian meridian_stops 0.5 BINS_TO_RESET down failing
           with_token opening
      = (r, s')
      /\ login_requests (history s') = login_requests (history (opening (F := float)))
      /\ __init__ (args_url with_token) (args_token with_token)
                  (args_speed with_token) (args_pause with_token)
                  {| sent := requests (opening (F := float)); log := [] |}
         = (Ret self, w0)
      /\ speed self = args_speed with_token
      /\ pause_time self = args_pause with_token
      /\ token self = args_token with_token
      /\ drive_route meridian meridian_stops 0.5 BINS_TO_RESET failing
                     self w0
         = (r, w)
      /\ walk_events (history s') = log w ++ walk_events (history (opening (F := float)))
      /\ requests s' = sent w.
Proof.
  split; [reflexivity|].
  apply (token_skips_login meridian meridian_stops 0.5 BINS_TO_RESET
                           down failing with_token opening).
  reflexivity.
Defined.

Lemma skip_reset_is_ignored_witness :
  has_token (args_token with_token) = true
  /\ args_skip_reset with_token = true
  /\ exists r (s' : session (F := float)),
      main meridian meridian_stops 0.5 BINS_TO_RESET down failing
           with_token opening
      = (r, s')
      /\ forall bin_id fill_level,
          In (bin_id, fill_level) BINS_TO_RESET ->
          exists a,
            In (Walk (Request (PutFillLevel bin_id fill_level) a))
               (history s').
Proof.
  split; [reflexivity|]. split; [reflexivity|].
  apply (skip_reset_is_ignored meridian meridian_stops 0.5 BINS_TO_RESET
                               down failing with_token opening);
    reflexivity.
Defined.

Lemma failed_login_ends_main_witness :
  has_token (args_token without_token) = false
  /\ token_of (down (args_url without_token) (args_username without_token)
                    (args_password without_token))
     = ""%string
  /\ exists s' : session (F := float),
      main meridian meridian_stops 0.5 BINS_TO_RESET down failing
           without_token opening
      = (Ret tt, s')
      /\ requests s' = S (requests (opening (F := float)))
      /\ login_requests (history s')
         = (args_url without_token, args_username without_token,
            args_password without_token)
           :: login_requests (history (opening (F := float)))
      /\ walk_events (history s') = walk_events (history (opening (F := float)))
      /\ In (Say MsgLoginFailed) (history s').
Proof.
  split; [reflexivity|]. split; [reflexivity|].
  apply (failed_login_ends_main meridian meridian_stops 0.5 BINS_TO_RESET
                                down failing without_token opening);
    reflexivity.
Defined.

Lemma login_token_reaches_simulator_witness :
  has_token (args_token without_token) = false
  /\ token_of (up (args_url without_token) (args_username without_token)
                  (args_password without_token))
     = "secret"%string
  /\ has_token (Some "secret"%string) = true
  /\ exists self w0 r w (s' : session (F := float)),
      main meridian meridian_stops 0.5 BINS_TO_RESET up failing
           without_token opening
      = (r, s')
      /\ login_requests (history s')
         = (args_url without_token, args_username without_token,
            args_password without_token)
           :: login_requests (history (opening (F := float)))
      /\ __init__ (args_url without_token) (Some "secret"%string)
                  (args_speed without_token) (args_pause without_token)
                  {| sent := S (requests (opening (F := float))); log := [] |}
         = (Ret self, w0)
      /\ base_url self = args_url without_token
      /\ token self = Some "secret"%string
      /\ drive_route meridian meridian_stops 0.5 BINS_TO_RESET failing
                     self w0
         = (r, w)
      /\ walk_events (history s')
         = log w ++ walk_events (history (opening (F := float)))
      /\ requests s' = sent w
      /\ In (Say MsgLoginSuccessful) (history s').
Proof.
  split; [reflexivity|]. split; [reflexivity|]. split; [reflexivity|].
  apply (login_token_reaches_simulator
           meridian meridian_stops 0.5 BINS_TO_RESET up failing
           without_token opening "secret"%string);
    reflexivity.
Defined.

(** A run of [main] with the defaults and the log-in service down. *)
Example main_login_down :
  main meridian meridian_stops 0.5 BINS_TO_RESET down failing
       without_token opening
  = (Ret tt,
     {| requests := 1;
        history :=
          [Say MsgLoginFailed;
           Say (MsgLoginError "Connection refused");
           LoginRequest "http://localhost:5000" "collector1" "password"
                        (Failure {| exc_str := "Connection refused";
                                    exc_response := None |});
           Say (MsgLoggingIn "collector1")] |}).
Proof. vm_compute. reflexivity. Qed.

End Binary64More.

(** ** The densifier and the speed on binary64: instances *)

Module Binary64Cases.

Import Binary64 Binary64Math Binary64Laws Binary64Run.

Local Open Scope float_scope.

(** *** The spacing *)



(** *** The specification *)

Lemma densifier_follows_specification_witness :
  (2 <= length example_route)%nat
  /\ flt fzero 1 = true
  /\ (evenly_space_coordinates example_route 1 = densify example_route 1
      /\ (forall A B, num_points A B 1 = pieces A B 1)
      /\ (forall A B n,
            length (intermediates A B n) = Z.to_nat (n - 1)
            /\ forall j, (1 <= j < n)%Z ->
                         nth_error (intermediates A B n) (Z.to_nat (j - 1))
                         = Some (interpolant A B n j)))
  /\ evenly_space_coordinates example_route 1
     = Ret [(0, 0); (0, 1); (0, 2)]
  /\ densify example_route 1 = Ret [(0, 0); (0, 1); (0, 2)].
Proof.
  assert (Hlen : (2 <= length example_route)%nat) by (simpl; lia).
  assert (Hs : flt fzero 1 = true) by reflexivity.
  split; [exact Hlen|]. split; [exact Hs|].
  split; [exact (densifier_follows_specification example_route 1 Hlen Hs)|].
  split; vm_compute; reflexivity.
Defined.

(** [math.floor] and [int] differ below zero only. *)
Example floor_and_int :
  floor (-0.5) = Ret (-1)%Z /\ to_int (-0.5) = Ret 0%Z
  /\ floor 2.5 = Ret 2%Z /\ to_int 2.5 = Ret 2%Z
  /\ floor (-2) = Ret (-2)%Z /\ floor infinity = Raise OverflowError
  /\ floor nan = Raise ValueError.
Proof. vm_compute. repeat split; reflexivity. Qed.

(** On the default spacing factor the quotient is rounded before its
    floor is taken: [0.0005 / 0.0001] is [5.0] on floats, and the
    segment is cut in 5 pieces. *)
Example pieces_of_rounded_quotient :
  pieces (0, 0) (0, 0.0005) 0.0001 = Ret 5%Z
  /\ num_points (0, 0) (0, 0.0005) 0.0001 = Ret 5%Z.
Proof. split; vm_compute; reflexivity. Qed.

(** *** Adjacent identical waypoints *)

Lemma zero_length_segment_emits_both_ends_witness :
  ffinite (fst (0, 0)) = true /\ ffinite (snd (0, 0)) = true
  /\ flt fzero 1 = true
  /\ route_defined ([] ++ (0, 0) :: (0, 0) :: [(0, 2)]) 1
  /\ num_points (0, 0) (0, 0) 1 = Ret 1%Z
  /\ intermediates (0, 0) (0, 0) 1 = []
  /\ exists o1 o2,
      evenly_space_coordinates ([] ++ (0, 0) :: (0, 0) :: [(0, 2)]) 1
      = Ret (o1 ++ (0, 0) :: (0, 0) :: o2)
      /\ evenly_space_coordinates ([] ++ [(0, 0)]) 1 = Ret (o1 ++ [(0, 0)])
      /\ evenly_space_coordinates ((0, 0) :: [(0, 2)]) 1
         = Ret ((0, 0) :: o2).
Proof.
  assert (Hx : ffinite (fst (0, 0)) = true) by reflexivity.
  assert (Hy : ffinite (snd (0, 0)) = true) by reflexivity.
  assert (Hs : flt fzero 1 = true) by reflexivity.
  assert (Hdef : route_defined ([] ++ (0, 0) :: (0, 0) :: [(0, 2)]) 1).
  { simpl. repeat split; eexists; vm_compute; reflexivity. }
  split; [exact Hx|]. split; [exact Hy|]. split; [exact Hs|].
  split; [exact Hdef|].
  exact (zero_length_segment_emits_both_ends [] [(0, 2)] (0, 0) 1
                                             Hx Hy Hs Hdef).
Defined.

(** C3, as stated, fails: on [[0,0],[0,0],[0,2]] with [s = 1] the point
    [[0,0]] is emitted twice. *)
Lemma repeated_waypoint_is_emitted_twice :
  evenly_space_coordinates repeated_route 1
  = Ret [(0, 0); (0, 0); (0, 1); (0, 2)]
  /\ ~ emitted_once (0, 0) [(0, 0); (0, 0); (0, 1); (0, 2)].
Proof.
  split; [vm_compute; reflexivity|].
  intros [l1 [l2 [Heq [Hl1 Hl2]]]].
  destruct l1 as [|p l1].
  - injection Heq as <-. apply Hl2. left. reflexivity.
  - injection Heq as <- _. apply Hl1. left. reflexivity.
Qed.

(** *** The ends *)

Lemma densified_route_keeps_ends_witness :
  (2 <= length example_route)%nat
  /\ (forall out,
         evenly_space_coordinates example_route 1 = Ret out ->
         exists first final,
           nth_error example_route 0 = Some first
           /\ nth_error example_route (length example_route - 1)
              = Some final
           /\ nth_error out 0 = Some first
           /\ nth_error out (length out - 1) = Some final)
  /\ (route_defined example_route 1 ->
      exists out, evenly_space_coordinates example_route 1 = Ret out).
Proof.
  assert (Hlen : (2 <= length example_route)%nat) by (simpl; lia).
  split; [exact Hlen|].
  exact (densified_route_keeps_ends example_route 1 Hlen).
Defined.

(** Where a square overflows the function raises and there is no
    densified route. *)
Example densify_overflow :
  evenly_space_coordinates [(0, 0); (1e200, 0)] 1 = Raise OverflowError.
Proof. vm_compute. reflexivity. Qed.

(** *** The speed *)


(** A speed above zero whose inverse is too long a sleep stops the walk
    too, on the [OverflowError] of [time.sleep]; an infinite speed
    sleeps [0.0]. *)
Example tiny_and_infinite_speed :
  (let (r, w) := drive_route meridian [] 0.0005 [] accepting
                             (simulator 1e-10) start in
   r = Raise OverflowError /\ reported w = [(0, 0)])
  /\ (let (r, w) := drive_route meridian [] 0.0005 [] accepting
                                (simulator infinity) start in
      r = Ret tt /\ step_sleeps (trace w) = [0; 0]).
Proof. vm_compute. repeat split; reflexivity. Qed.

(** *** Spacing factors that cut nothing *)

Lemma negative_spacing_keeps_route_witness :
  flt (-1) fzero = true
  /\ route_defined example_route (-1)
  /\ evenly_space_coordinates example_route (-1) = Ret example_route.
Proof.
  assert (Hs : flt (-1) fzero = true) by reflexivity.
  assert (Hdef : route_defined example_route (-1)).
  { simpl. split; [|exact I]. eexists. vm_compute. reflexivity. }
  split; [exact Hs|]. split; [exact Hdef|].
  exact (negative_spacing_keeps_route example_route (-1) Hs Hdef).
Defined.

Lemma coarse_spacing_keeps_route_witness :
  route_defined sparse_route 1
  /\ adjacent_all (fun A B => exists d q,
                      distance A B = Ret d /\ fdiv d 1 = Ret q
                      /\ flt q (fadd fone fone) = true) sparse_route
  /\ evenly_space_coordinates sparse_route 1 = Ret sparse_route.
Proof.
  assert (Hdef : route_defined sparse_route 1).
  { simpl. split; [|exact I]. eexists. vm_compute. reflexivity. }
  assert (Hall : adjacent_all (fun A B => exists d q,
                                  distance A B = Ret d /\ fdiv d 1 = Ret q
                                  /\ flt q (fadd fone fone) = true)
                              sparse_route).
  { simpl. split; [|exact I]. exists 1.5, 1.5.
    repeat split; vm_compute; reflexivity. }
  split; [exact Hdef|]. split; [exact Hall|].
  exact (coarse_spacing_keeps_route sparse_route 1 Hdef Hall).
Defined.

(** *** The matcher *)

Lemma no_match_without_tolerance_witness :
  flt fzero 0 = false
  /\ match_bin 0 (0, 1) [(0, 1); (0, 2)] 0 = None.
Proof.
  assert (Htol : flt fzero 0 = false) by reflexivity.
  split; [exact Htol|].
  exact (no_match_without_tolerance 0 (0, 1) [(0, 1); (0, 2)] Htol).
Defined.

Lemma stop_at_position_matches_witness :
  ffinite (fst (0, 1)) = true /\ ffinite (snd (0, 1)) = true
  /\ flt fzero 0.5 = true
  /\ nth_error [(0, 0); (0, 1)] 1 = Some (0, 1)
  /\ exists idx stop,
      match_bin 0.5 (0, 1) [(0, 0); (0, 1)] 0 = Some idx
      /\ (idx <= 1)%nat
      /\ nth_error [(0, 0); (0, 1)] idx = Some stop
      /\ covers 0.5 stop (0, 1).
Proof.
  assert (Hx : ffinite (fst (0, 1)) = true) by reflexivity.
  assert (Hy : ffinite (snd (0, 1)) = true) by reflexivity.
  assert (Htol : flt fzero 0.5 = true) by reflexivity.
  split; [exact Hx|]. split; [exact Hy|]. split; [exact Htol|].
  split; [reflexivity|].
  exact (stop_at_position_matches 0.5 (0, 1) [(0, 0); (0, 1)] 1
                                  Hx Hy Htol eq_refl).
Defined.

(** A stop that is not finite is not matched at its own position. *)
Example no_match_at_infinity :
  match_bin 0.5 (infinity, 0) [(infinity, 0)] 0 = None
  /\ match_bin 0.5 (nan, 0) [(nan, 0)] 0 = None.
Proof. split; vm_compute; reflexivity. Qed.

Lemma failed_interval_stops_after_first_report_witness :
  (fdiv fone (speed (simulator 0)) = Raise ZeroDivisionError
   \/ exists t, fdiv fone (speed (simulator 0)) = Ret t
                /\ sleep_exn t = Some ZeroDivisionError)
  /\ (match_bin 0.5 (0, 0) meridian_stops 0 = None
      \/ int_sleep_exn (pause_time (simulator 0)) = None)
  /\ exists w,
      drive_route ((0, 0) :: (0, 1) :: [(0, 2)]) meridian_stops 0.5
                  BINS_TO_RESET failing (simulator 0) start
      = (Raise ZeroDivisionError, w)
      /\ reported w = [(0, 0)].
Proof.
  assert (Hdiv : fdiv fone (speed (simulator 0)) = Raise ZeroDivisionError
                 \/ exists t, fdiv fone (speed (simulator 0)) = Ret t
                              /\ sleep_exn t = Some ZeroDivisionError)
    by (left; reflexivity).
  assert (Hfirst : match_bin 0.5 (0, 0) meridian_stops 0 = None
                   \/ int_sleep_exn (pause_time (simulator 0)) = None)
    by (left; reflexivity).
  split; [exact Hdiv|]. split; [exact Hfirst|].
  exact (failed_interval_stops_after_first_report
           (0, 0) (0, 1) [(0, 2)] meridian_stops 0.5 BINS_TO_RESET failing
           (simulator 0) ZeroDivisionError Hdiv Hfirst).
Defined.

End Binary64Cases.
